(** * Credential lifecycle of the Google Drive MCP server

    A shallow embedding of [auth.ts] (authentication mode selection, quiet
    credential loading, token refresh, interactive authorization) and of the
    start-up path of [index.ts], followed by the properties of the credential
    state machine.  The read tool and the request handlers of [index.ts] are
    embedded after it, over the same worlds.

    The TypeScript code is sequential ([async]/[await] without any parallel
    composition on the paths studied here), so it is embedded in a state and
    exception monad over an explicit [World]: the process environment, the
    credentials directory, the clock, the answers of the remote services and
    the trace of observable effects. *)

From Stdlib Require Import ZArith Lia Bool List Ascii.
From stdpp Require Import base option gmap strings pretty.

Local Open Scope string_scope.
Local Open Scope Z_scope.

(** ** Data model *)

(** [export enum AuthType]. *)
Inductive AuthType := OAUTH | SERVICE_ACCOUNT.

#[global] Instance AuthType_eq_dec : EqDecision AuthType.
Proof. solve_decision. Defined.

(** [export const SCOPES]. *)
Definition SCOPES : list string :=
  [ "https://www.googleapis.com/auth/drive.readonly";
    "https://www.googleapis.com/auth/spreadsheets" ].

(** A field of type [string | null | undefined] of a JavaScript object. *)
Inductive JsString := SUndefined | SNull | SStr (s : string).

(** A field of type [number | null | undefined].  Epoch milliseconds are
    integers; a fractional number would be truncated by [new Date(..)]. *)
Inductive JsNumber := NUndefined | NNull | NNum (n : Z).

(** JavaScript truthiness of a [string | null | undefined] value: only a
    non-empty string is truthy. *)
Definition truthy (v : JsString) : bool :=
  match v with
  | SStr s => negb (String.eqb s "")
  | _ => false
  end.

(** The [Credentials] object of the OAuth client library, which is what the
    credential file holds. *)
Record Credentials := {
  refresh_token : JsString;
  expiry_date : JsNumber;
  access_token : JsString;
  token_type : JsString;
  id_token : JsString;
  scope : JsString;
}.

(** [{}]: the credentials of a client on which [setCredentials] was never
    called. *)
Definition emptyCredentials : Credentials :=
  {| refresh_token := SUndefined; expiry_date := NUndefined;
     access_token := SUndefined; token_type := SUndefined;
     id_token := SUndefined; scope := SUndefined |}.

(** [!!savedCreds.refresh_token], logged as [hasRefreshToken] and tested
    before a refresh; the client library makes the same test on the
    credentials of the client it is asked to refresh. *)
Definition hasRefreshToken (c : Credentials) : bool := truthy (refresh_token c).

(** A location on disk: either an entry of the credentials directory
    [CREDS_DIR], or some path outside of it (only
    [GDRIVE_SERVICE_ACCOUNT_PATH] can point there). *)
Inductive Path := InCredsDir (name : string) | Outside (p : string).

(** [const oauthCredentialsPath = path.join(CREDS_DIR, ".gdrive-server-credentials.json")]. *)
Definition oauthCredentialsPath : Path := InCredsDir ".gdrive-server-credentials.json".

(** [new google.auth.OAuth2(clientId, clientSecret)] with its credentials. *)
Record OAuth2Client := {
  clientId : option string;
  clientSecret : option string;
  credentials : Credentials;
}.

Definition new_OAuth2 (cid cs : option string) : OAuth2Client :=
  {| clientId := cid; clientSecret := cs; credentials := emptyCredentials |}.

(** [client.setCredentials(c)]. *)
Definition setCredentials (cl : OAuth2Client) (c : Credentials) : OAuth2Client :=
  {| clientId := clientId cl; clientSecret := clientSecret cl; credentials := c |}.

(** What the authentication functions return: an OAuth2 client or a
    [GoogleAuth] object built from the service-account key file. *)
Inductive Handle :=
| HOAuth2 (client : OAuth2Client)
| HGoogleAuth (keyFile : Path) (scopes : list string).

(** What [JSON.parse(fs.readFileSync(path, "utf-8"))] makes of a file:
    - [Unreadable]: reading or parsing throws;
    - [JsonNull]: the text is the JSON value [null];
    - [JsonObject c]: a JSON value seen through the fields the code reads.
    [JSON.stringify] followed by [JSON.parse] gives back the fields of a
    [Credentials] value (an [undefined] field is dropped by the first and is
    [undefined] again after the second), so that a file written by the
    program holds [JsonObject] of what was written. *)
Inductive FileData := Unreadable | JsonNull | JsonObject (c : Credentials).

(** The outcome of the browser flow run by [authenticate] of
    [@google-cloud/local-auth]: it resolves with a client or rejects after
    some milliseconds, or never settles. *)
Inductive AuthFlow :=
| FlowResolves (after : Z) (client : OAuth2Client)
| FlowRejects (after : Z)
| FlowPending.

(** Observable effects, most recent first in the trace. *)
Inductive Event :=
| EvLog (msg : string)                      (* console.error *)
| EvMkdir                                   (* fs.mkdirSync(CREDS_DIR) created the directory *)
| EvWrite (name : string) (c : Credentials) (* fs.writeFileSync succeeded *)
| EvRefresh                                 (* client.refreshAccessToken() called *)
| EvInteractive                             (* authenticate() launched *)
| EvConnect                                 (* server.connect(transport) called *)
| EvSetInterval (ms : Z)                    (* setInterval registered *)
| EvExit (code : Z).                        (* process.exit called *)

#[global] Instance JsString_eq_dec : EqDecision JsString.
Proof. solve_decision. Defined.
#[global] Instance JsNumber_eq_dec : EqDecision JsNumber.
Proof. solve_decision. Defined.
#[global] Instance Credentials_eq_dec : EqDecision Credentials.
Proof. solve_decision. Defined.
#[global] Instance Event_eq_dec : EqDecision Event.
Proof. solve_decision. Defined.

(** The state of the process and of what surrounds it. *)
Record World := {
  (* configuration and surroundings, never changed by the program *)
  env : gmap string string;               (* process.env *)
  serviceAccountPath : Path;              (* module constant, from GDRIVE_SERVICE_ACCOUNT_PATH *)
  dir_creatable : bool;                   (* can CREDS_DIR be created when missing *)
  outside : gset string;                  (* existing paths outside CREDS_DIR *)
  auth_flow : AuthFlow;                   (* what the browser flow will do *)
  connect_ok : bool;                      (* does server.connect succeed *)
  (* what the program reads and changes *)
  creds_dir : option (gmap string FileData); (* CREDS_DIR: None when it does not exist *)
  now : Z;                                (* the clock, epoch milliseconds *)
  refresh_responses : list (option Credentials); (* answers of the token endpoint, in order *)
  google_auth : option Handle;            (* google.options({ auth }) *)
  trace : list Event;
}.

Definition set_creds_dir (d : option (gmap string FileData)) (w : World) : World :=
  {| env := env w; serviceAccountPath := serviceAccountPath w;
     dir_creatable := dir_creatable w; outside := outside w;
     auth_flow := auth_flow w; connect_ok := connect_ok w;
     creds_dir := d; now := now w;
     refresh_responses := refresh_responses w;
     google_auth := google_auth w; trace := trace w |}.

Definition set_now (t : Z) (w : World) : World :=
  {| env := env w; serviceAccountPath := serviceAccountPath w;
     dir_creatable := dir_creatable w; outside := outside w;
     auth_flow := auth_flow w; connect_ok := connect_ok w;
     creds_dir := creds_dir w; now := t;
     refresh_responses := refresh_responses w;
     google_auth := google_auth w; trace := trace w |}.

Definition set_refresh_responses (l : list (option Credentials)) (w : World) : World :=
  {| env := env w; serviceAccountPath := serviceAccountPath w;
     dir_creatable := dir_creatable w; outside := outside w;
     auth_flow := auth_flow w; connect_ok := connect_ok w;
     creds_dir := creds_dir w; now := now w;
     refresh_responses := l;
     google_auth := google_auth w; trace := trace w |}.

Definition set_google_auth (a : option Handle) (w : World) : World :=
  {| env := env w; serviceAccountPath := serviceAccountPath w;
     dir_creatable := dir_creatable w; outside := outside w;
     auth_flow := auth_flow w; connect_ok := connect_ok w;
     creds_dir := creds_dir w; now := now w;
     refresh_responses := refresh_responses w;
     google_auth := a; trace := trace w |}.

Definition set_trace (t : list Event) (w : World) : World :=
  {| env := env w; serviceAccountPath := serviceAccountPath w;
     dir_creatable := dir_creatable w; outside := outside w;
     auth_flow := auth_flow w; connect_ok := connect_ok w;
     creds_dir := creds_dir w; now := now w;
     refresh_responses := refresh_responses w;
     google_auth := google_auth w; trace := t |}.

(** ** The monad of the embedding: state and exceptions *)

Inductive Error :=
| TypeError | RangeError | SyntaxError | FsError
| AuthTimeout | AuthRejected | RefreshError | ConnectError.

Inductive Result (A : Type) := Ok (a : A) | Throw (e : Error).
Arguments Ok {A} a.
Arguments Throw {A} e.

Definition M (A : Type) : Type := World -> Result A * World.

#[global] Instance M_ret : MRet M := fun A a w => (Ok a, w).

#[global] Instance M_bind : MBind M := fun A B f m w =>
  match m w with
  | (Ok a, w') => f a w'
  | (Throw e, w') => (Throw e, w')
  end.

Definition throw {A} (e : Error) : M A := fun w => (Throw e, w).

(** [try { body } catch (error) { handler(error) }]. *)
Definition try_catch {A} (body : M A) (handler : Error -> M A) : M A := fun w =>
  match body w with
  | (Ok a, w') => (Ok a, w')
  | (Throw e, w') => handler e w'
  end.

Definition gets {A} (f : World -> A) : M A := fun w => (Ok (f w), w).
Definition modify (f : World -> World) : M unit := fun w => (Ok tt, f w).

Definition emit (e : Event) : M unit := modify (fun w => set_trace (e :: trace w) w).

(** [console.error(msg, ...)]: the constant part of the message is kept. *)
Definition log (msg : string) : M unit := emit (EvLog msg).

Definition error_message (e : Error) : string :=
  match e with
  | TypeError => "TypeError"
  | RangeError => "RangeError: Invalid time value"
  | SyntaxError => "SyntaxError"
  | FsError => "Error: file system"
  | AuthTimeout => "Error: Authentication timed out"
  | AuthRejected => "Error: authentication failed"
  | RefreshError => "Error: token refresh failed"
  | ConnectError => "Error: connect failed"
  end.

(** ** The platform: environment, file system, clock *)

(** [process.env.NAME]. *)
Definition getenv (name : string) : M (option string) := gets (fun w => env w !! name).

Definition existsSync (p : Path) (w : World) : bool :=
  match p with
  | InCredsDir name =>
      match creds_dir w with
      | Some d => bool_decide (is_Some (d !! name))
      | None => false
      end
  | Outside q => bool_decide (q ∈ outside w)
  end.

(** [fs.existsSync(p)]. *)
Definition fs_existsSync (p : Path) : M bool := gets (existsSync p).

(** [fs.mkdirSync(CREDS_DIR, { recursive: true })]: nothing to do when the
    directory is there; otherwise it is created, or the call throws. *)
Definition fs_mkdirSync_CREDS_DIR : M unit := fun w =>
  match creds_dir w with
  | Some _ => (Ok tt, w)
  | None =>
      if dir_creatable w
      then (Ok tt, set_trace (EvMkdir :: trace w) (set_creds_dir (Some ∅) w))
      else (Throw FsError, w)
  end.

(** A parsed JSON text, as far as the code looks into it. *)
Inductive JsonValue := JNull | JObject (c : Credentials).

(** [JSON.parse(fs.readFileSync(p, "utf-8"))].  The program reads no file
    outside the credentials directory. *)
Definition read_json (p : Path) : M JsonValue := fun w =>
  match p with
  | InCredsDir name =>
      match creds_dir w ≫= (fun d => d !! name) with
      | Some (JsonObject c) => (Ok (JObject c), w)
      | Some JsonNull => (Ok JNull, w)
      | Some Unreadable => (Throw SyntaxError, w)
      | None => (Throw FsError, w)
      end
  | Outside _ => (Throw FsError, w)
  end.

(** [fs.writeFileSync(p, JSON.stringify(c, null, 2))]: a full overwrite of
    the file; it throws when the directory is missing.  The program writes
    no file outside the credentials directory. *)
Definition fs_writeFileSync (p : Path) (c : Credentials) : M unit := fun w =>
  match p, creds_dir w with
  | InCredsDir name, Some d =>
      (Ok tt, set_trace (EvWrite name c :: trace w)
                (set_creds_dir (Some (<[name := JsonObject c]> d)) w))
  | _, _ => (Throw FsError, w)
  end.

(** JavaScript numbers on the expiry computation: an integer number of
    milliseconds, or [NaN] ([None]).  The subtraction of two time values is
    exact below 2^53 and rounds monotonically above, so comparing the
    integer difference with five minutes is what the code computes. *)
Definition JsNum := option Z.

Definition num_sub (a b : JsNum) : JsNum :=
  match a, b with
  | Some x, Some y => Some (x - y)
  | _, _ => None
  end.

(** [a < b] on numbers: false when [a] is [NaN]. *)
Definition num_ltb (a : JsNum) (b : Z) : bool :=
  match a with
  | Some x => x <? b
  | None => false
  end.

(** The largest time value of a [Date], in milliseconds. *)
Definition maxTimeValue : Z := 8640000000000000.

(** [new Date(v).getTime()]: [undefined] gives an invalid date, [null] the
    epoch, a number is clipped to the range of time values. *)
Definition new_Date (v : JsNumber) : JsNum :=
  match v with
  | NUndefined => None
  | NNull => Some 0
  | NNum n => if Z.abs n <=? maxTimeValue then Some n else None
  end.

(** [new Date().getTime()]. *)
Definition Date_now : M JsNum := gets (fun w => Some (now w)).

(** [date.toISOString()] throws a [RangeError] on an invalid date; the
    string itself is only logged. *)
Definition toISOString (d : JsNum) : M unit :=
  match d with
  | Some _ => mret tt
  | None => throw RangeError
  end.

(** [google.options({ auth })]. *)
Definition google_options (auth : option Handle) : M unit :=
  modify (set_google_auth auth).

(** [await client.refreshAccessToken()].  The library refuses a client
    whose credentials hold no refresh token (its error is "No refresh token
    is set.") before it sends anything; otherwise it makes one request to
    the token endpoint, which answers with new credentials or fails.  The
    call is modelled by what it resolves with.  The library also stores the
    new credentials in the client object; here the [setCredentials] of the
    callers does, so that the client which [authenticateAndSaveCredentials]
    returns from its [catch] when saving fails after a successful refresh
    still shows the previous credentials: no property below reads them. *)
Definition refreshAccessToken (client : OAuth2Client) : M Credentials := fun w =>
  let w1 := set_trace (EvRefresh :: trace w) w in
  if negb (hasRefreshToken (credentials client)) then (Throw RefreshError, w1)
  else
    match refresh_responses w with
    | Some c :: rest => (Ok c, set_refresh_responses rest w1)
    | None :: rest => (Throw RefreshError, set_refresh_responses rest w1)
    | [] => (Throw RefreshError, w1)
    end.

(** The largest delay that [setTimeout] takes as it is; a delay below 1 or
    above this one is replaced by 1 ms. *)
Definition maxTimerDelay : Z := 2147483647.

(** [await Promise.race([authenticate({ keyfilePath, scopes }), timeoutPromise])]:
    the browser flow wins when it settles before [timeoutMs], otherwise the
    timer rejects with "Authentication timed out".  This is the race for a
    delay between 1 and [maxTimerDelay], which the only call (with the
    default of 30000) respects.  The clock is moved to the earliest reading
    at which the race can be settled; the timer may fire later than that. *)
Definition race_authenticate (keyfilePath : Path) (scopes : list string)
    (timeoutMs : Z) : M OAuth2Client := fun w =>
  let w1 := set_trace (EvInteractive :: trace w) w in
  let timed_out := (Throw AuthTimeout, set_now (now w + timeoutMs) w1) in
  match auth_flow w with
  | FlowResolves d client =>
      if d <? timeoutMs then (Ok client, set_now (now w + d) w1) else timed_out
  | FlowRejects d =>
      if d <? timeoutMs then (Throw AuthRejected, set_now (now w + d) w1) else timed_out
  | FlowPending => timed_out
  end.

(** ** auth.ts *)

(** [ensureCredsDirectory()]. *)
Definition ensureCredsDirectory : M unit :=
  try_catch
    (fs_mkdirSync_CREDS_DIR;;
     log "Ensured credentials directory exists at:")
    (fun error =>
       log "Failed to create credentials directory:";;
       throw error).

(** [authenticateWithTimeout(keyfilePath, SCOPES, timeoutMs = 30000)]. *)
Definition authenticateWithTimeout (keyfilePath : Path) (scopes : list string)
    (timeoutMs : Z) : M (option OAuth2Client) :=
  try_catch
    (client ← race_authenticate keyfilePath scopes timeoutMs;
     mret (Some client))
    (fun error =>
       log (error_message error);;
       mret None).

Definition default_timeoutMs : Z := 30000.

(** [authenticateAndSaveCredentials()].  The client [newAuth] built when
    [auth] is truthy is never used again; [auth.refreshAccessToken()] on a
    null [auth] is a [TypeError] raised inside the [try]. *)
Definition authenticateAndSaveCredentials : M (option OAuth2Client) :=
  log "Launching auth flow...";;
  log "Using credentials path:";;
  let keyfilePath := InCredsDir "gcp-oauth.keys.json" in
  log "Using keyfile path:";;
  auth ← authenticateWithTimeout keyfilePath SCOPES default_timeoutMs;
  let newAuth := (fun a => setCredentials (new_OAuth2 None None) (credentials a)) <$> auth in
  try_catch
    (client ← match auth with
              | Some a => mret a
              | None => throw TypeError
              end;
     credentials ← refreshAccessToken client;
     log "Received new credentials with scopes:";;
     ensureCredsDirectory;;
     fs_writeFileSync oauthCredentialsPath credentials;;
     log "Credentials saved successfully with refresh token to:";;
     mret (Some (setCredentials client credentials)))
    (fun error =>
       log "Error refreshing token during initial auth:";;
       mret auth).

(** [getAuthType()]. *)
Definition getAuthType : M AuthType :=
  use ← getenv "USE_SERVICE_ACCOUNT";
  if bool_decide (use = Some "true") then mret SERVICE_ACCOUNT
  else
    sap ← gets serviceAccountPath;
    sa ← fs_existsSync sap;
    oa ← fs_existsSync oauthCredentialsPath;
    if sa && negb oa then mret SERVICE_ACCOUNT
    else mret OAUTH.

Definition msg_service_account : string := "Authenticating with service account from:".

(** [authenticateWithServiceAccount()].  The [GoogleAuth] constructor only
    records the key file and the scopes. *)
Definition authenticateWithServiceAccount : M (option Handle) :=
  log msg_service_account;;
  sap ← gets serviceAccountPath;
  found ← fs_existsSync sap;
  if negb found then
    log "Service account file not found at:";;
    mret None
  else
    try_catch
      (let auth := HGoogleAuth sap SCOPES in
       log "Service account authentication successful";;
       mret (Some auth))
      (fun error =>
         log "Error authenticating with service account:";;
         mret None).

Definition fiveMinutes : Z := 5 * 60 * 1000.

(** [expiryDate.getTime() - now.getTime()]. *)
Definition timeToExpiry (c : Credentials) (now : JsNum) : JsNum :=
  num_sub (new_Date (expiry_date c)) now.

(** [loadOAuthCredentialsQuietly()].  A [return null] inside the inner
    [catch] leaves the function: the inner block yields the client to
    return, or nothing. *)
Definition loadOAuthCredentialsQuietly : M (option Handle) :=
  log "Attempting to load OAuth credentials from:";;
  cid ← getenv "CLIENT_ID";
  secret ← getenv "CLIENT_SECRET";
  let oauth2Client := new_OAuth2 cid secret in
  found ← fs_existsSync oauthCredentialsPath;
  if negb found then
    log "No OAuth credentials file found";;
    mret None
  else
    try_catch
      (parsed ← read_json oauthCredentialsPath;
       savedCreds ← match parsed with
                    | JObject c => mret c
                    | JNull => throw TypeError   (* savedCreds.scope on null *)
                    end;
       log "Loaded existing OAuth credentials with scopes:";;
       let oauth2Client := setCredentials oauth2Client savedCreds in
       let expiryDate := new_Date (expiry_date savedCreds) in
       now ← Date_now;
       let timeToExpiry := num_sub expiryDate now in
       toISOString expiryDate;;
       log "Token expiry status:";;
       if num_ltb timeToExpiry fiveMinutes && hasRefreshToken savedCreds then
         log "Attempting to refresh token using refresh_token";;
         try_catch
           (newCreds ← refreshAccessToken oauth2Client;
            ensureCredsDirectory;;
            fs_writeFileSync oauthCredentialsPath newCreds;;
            let oauth2Client := setCredentials oauth2Client newCreds in
            log "Token refreshed and saved successfully";;
            mret (Some (HOAuth2 oauth2Client)))
           (fun error =>
              log "Failed to refresh token:";;
              mret None)
       else
         mret (Some (HOAuth2 oauth2Client)))
      (fun error =>
         log "Error loading OAuth credentials:";;
         mret None).

(** [loadCredentialsQuietly()]. *)
Definition loadCredentialsQuietly : M (option Handle) :=
  authType ← getAuthType;
  log "Using auth type:";;
  match authType with
  | SERVICE_ACCOUNT => authenticateWithServiceAccount
  | OAUTH => loadOAuthCredentialsQuietly
  end.

(** [getValidCredentials(forceAuth = false)]. *)
Definition getValidCredentials (forceAuth : bool) : M (option Handle) :=
  quietAuth ← (if negb forceAuth then loadCredentialsQuietly else mret None);
  match quietAuth with
  | Some h => mret (Some h)
  | None =>
      authType ← getAuthType;
      match authType with
      | SERVICE_ACCOUNT =>
          log "Retrying service account authentication";;
          authenticateWithServiceAccount
      | OAUTH =>
          auth ← authenticateAndSaveCredentials;
          mret (HOAuth2 <$> auth)
      end
  end.

Definition refreshInterval : Z := 45 * 60 * 1000.

(** The callback given to [setInterval] by [setupTokenRefresh()]: one tick
    of the scheduled refresh. *)
Definition refreshTick : M unit :=
  try_catch
    (log "Running scheduled token refresh check";;
     auth ← loadCredentialsQuietly;
     match auth with
     | Some h =>
         google_options (Some h);;
         log "Completed scheduled token refresh"
     | None =>
         log "Skipping token refresh - no valid credentials"
     end)
    (fun error => log "Error in automatic token refresh:").

(** [setupTokenRefresh()]: registers [refreshTick] every 45 minutes. *)
Definition setupTokenRefresh : M unit :=
  log "Setting up automatic token refresh interval (45 minutes)";;
  emit (EvSetInterval refreshInterval).

(** The timer at work: [n] ticks, each after the interval has passed. *)
Fixpoint runTicks (n : nat) : M unit :=
  match n with
  | O => mret tt
  | S k =>
      modify (fun w => set_now (now w + refreshInterval) w);;
      refreshTick;;
      runTicks k
  end.

(** ** index.ts *)

(** [ensureAuth()]. *)
Definition ensureAuth : M (option Handle) :=
  auth ← getValidCredentials false;
  google_options auth;;
  mret auth.

(** [ensureAuthQuietly()]. *)
Definition ensureAuthQuietly : M (option Handle) :=
  auth ← loadCredentialsQuietly;
  match auth with
  | Some h => google_options (Some h)
  | None => mret tt
  end;;
  mret auth.

(** [await server.connect(transport)]. *)
Definition server_connect : M unit := fun w =>
  let w1 := set_trace (EvConnect :: trace w) w in
  if connect_ok w then (Ok tt, w1) else (Throw ConnectError, w1).

(** [process.exit(code)]. *)
Definition process_exit (code : Z) : M unit := emit (EvExit code).

(** [startServer()]. *)
Definition startServer : M unit :=
  try_catch
    (log "Starting server";;
     authType ← getAuthType;
     log "Using authentication method:";;
     ensureAuth;;
     server_connect;;
     match authType with
     | OAUTH => setupTokenRefresh
     | SERVICE_ACCOUNT => mret tt
     end)
    (fun error =>
       log "Error starting server:";;
       process_exit 1).

(** ** Observations on a run *)

Definition result_of {A} (m : M A) (w : World) : Result A := fst (m w).
Definition world_after {A} (m : M A) (w : World) : World := snd (m w).

Fixpoint count_events (p : Event -> bool) (t : list Event) : nat :=
  match t with
  | [] => O
  | e :: t' => ((if p e then 1 else 0) + count_events p t')%nat
  end.

Definition is_refresh (e : Event) : bool :=
  match e with EvRefresh => true | _ => false end.
Definition is_write (e : Event) : bool :=
  match e with EvWrite _ _ => true | _ => false end.
Definition is_interactive (e : Event) : bool :=
  match e with EvInteractive => true | _ => false end.
Definition is_exit (e : Event) : bool :=
  match e with EvExit _ => true | _ => false end.
Definition is_connect (e : Event) : bool :=
  match e with EvConnect => true | _ => false end.
Definition is_log (msg : string) (e : Event) : bool :=
  match e with EvLog m => String.eqb m msg | _ => false end.

(** Counters over the trace of a world. *)
Definition refresh_attempts (w : World) : nat := count_events is_refresh (trace w).
Definition disk_writes (w : World) : nat := count_events is_write (trace w).
Definition interactive_flows (w : World) : nat := count_events is_interactive (trace w).
Definition process_exits (w : World) : nat := count_events is_exit (trace w).
Definition connects (w : World) : nat := count_events is_connect (trace w).
Definition service_account_attempts (w : World) : nat :=
  count_events (is_log msg_service_account) (trace w).

(** What a later [JSON.parse(fs.readFileSync(oauthCredentialsPath))] yields. *)
Definition stored_credentials (w : World) : option FileData :=
  creds_dir w ≫= (fun d => d !! ".gdrive-server-credentials.json").

(** The refresh answered by the token endpoint is not a success. *)
Definition refresh_fails (w : World) : bool :=
  match refresh_responses w with
  | Some _ :: _ => false
  | _ => true
  end.

(** The browser flow does not produce a client within [timeoutMs]: it
    rejects, or it is still running when the timer fires. *)
Definition flow_fails (f : AuthFlow) (timeoutMs : Z) : bool :=
  match f with
  | FlowResolves d _ => negb (d <? timeoutMs)
  | FlowRejects _ => true
  | FlowPending => true
  end.

(** The handle that [loadOAuthCredentialsQuietly] builds around
    credentials [c]. *)
Definition oauth_handle (w : World) (c : Credentials) : Handle :=
  HOAuth2 {| clientId := env w !! "CLIENT_ID";
             clientSecret := env w !! "CLIENT_SECRET";
             credentials := c |}.

(** What a quiet path leaves alone: the configuration, the clock, the
    installed default credentials, which files exist, and the counts of
    interactive flows, connections and process exits. *)
Record quiet_frame (w w' : World) : Prop := {
  qf_env : env w' = env w;
  qf_service_account_path : serviceAccountPath w' = serviceAccountPath w;
  qf_dir_creatable : dir_creatable w' = dir_creatable w;
  qf_outside : outside w' = outside w;
  qf_auth_flow : auth_flow w' = auth_flow w;
  qf_connect_ok : connect_ok w' = connect_ok w;
  qf_now : now w' = now w;
  qf_google_auth : google_auth w' = google_auth w;
  qf_exists : forall p, existsSync p w' = existsSync p w;
  qf_interactive : interactive_flows w' = interactive_flows w;
  qf_connects : connects w' = connects w;
  qf_exits : process_exits w' = process_exits w;
}.

(** Two worlds that differ at most in what the program only writes: the
    trace and the installed default credentials. *)
Record same_inputs (w1 w2 : World) : Prop := {
  si_env : env w1 = env w2;
  si_service_account_path : serviceAccountPath w1 = serviceAccountPath w2;
  si_dir_creatable : dir_creatable w1 = dir_creatable w2;
  si_outside : outside w1 = outside w2;
  si_auth_flow : auth_flow w1 = auth_flow w2;
  si_connect_ok : connect_ok w1 = connect_ok w2;
  si_creds_dir : creds_dir w1 = creds_dir w2;
  si_now : now w1 = now w2;
  si_refresh_responses : refresh_responses w1 = refresh_responses w2;
}.

(** The mode of a world: what [getAuthType()] returns there. *)
Definition authTypeOf (w : World) : AuthType :=
  match result_of getAuthType w with
  | Ok t => t
  | Throw _ => OAUTH
  end.

(** ** Sample worlds *)

Definition sample_now : Z := 1700000000000.

Definition sample_world (e : gmap string string) (flow : AuthFlow)
    (dir : option (gmap string FileData))
    (answers : list (option Credentials)) : World :=
  {| env := e; serviceAccountPath := InCredsDir "service-account.json";
     dir_creatable := true; outside := ∅;
     auth_flow := flow; connect_ok := true;
     creds_dir := dir; now := sample_now;
     refresh_responses := answers;
     google_auth := None; trace := [] |}.

Definition sample_creds (token : JsString) (expiry : Z) (access : string) : Credentials :=
  {| refresh_token := token; expiry_date := NNum expiry;
     access_token := SStr access; token_type := SStr "Bearer";
     id_token := SUndefined;
     scope := SStr "https://www.googleapis.com/auth/drive.readonly" |}.

Definition oauth_file (c : Credentials) : option (gmap string FileData) :=
  Some {[ ".gdrive-server-credentials.json" := JsonObject c ]}.

(** One minute of validity left, with a refresh token. *)
Definition expiring_creds : Credentials :=
  sample_creds (SStr "1//refresh") (sample_now + 60000) "ya29.old".

(** One minute of validity left, no refresh token. *)
Definition stale_creds : Credentials :=
  sample_creds SUndefined (sample_now + 60000) "ya29.stale".

(** One hour of validity left. *)
Definition fresh_creds : Credentials :=
  sample_creds (SStr "1//refresh") (sample_now + 3600000) "ya29.new".

(** A client whose credentials hold no refresh token. *)
Definition sample_client : OAuth2Client :=
  {| clientId := Some "id"; clientSecret := Some "secret";
     credentials := sample_creds SUndefined (sample_now + 3600000) "ya29.code" |}.

(** A client as the browser flow gives it on a first consent: its
    credentials hold a refresh token. *)
Definition refreshable_client : OAuth2Client :=
  {| clientId := Some "id"; clientSecret := Some "secret";
     credentials := sample_creds (SStr "1//refresh") (sample_now + 3600000) "ya29.code" |}.

(** Nothing on disk, nothing configured, the browser flow never settles. *)
Definition world_blank : World := sample_world ∅ FlowPending None [].

(** USE_SERVICE_ACCOUNT=true although no key file exists. *)
Definition world_forced : World :=
  sample_world {[ "USE_SERVICE_ACCOUNT" := "true" ]} FlowPending None [].

(** Only the service-account key file exists. *)
Definition world_key_file : World :=
  sample_world ∅ FlowPending (Some {[ "service-account.json" := Unreadable ]}) [].

(** USE_SERVICE_ACCOUNT=true and no key file, the browser flow would succeed. *)
Definition world_forced_flow : World :=
  sample_world {[ "USE_SERVICE_ACCOUNT" := "true" ]}
    (FlowResolves 5000 sample_client) None [].

Definition world_expiring_ok : World :=
  sample_world ∅ FlowPending (oauth_file expiring_creds) [Some fresh_creds].

Definition world_expiring_fail : World :=
  sample_world ∅ FlowPending (oauth_file expiring_creds) [None].

Definition world_stale : World :=
  sample_world ∅ FlowPending (oauth_file stale_creds) [Some fresh_creds].

Definition world_fresh : World :=
  sample_world ∅ FlowPending (oauth_file fresh_creds) [Some expiring_creds].

(** Both the key file and the OAuth credential file exist. *)
Definition world_both_files : World :=
  sample_world ∅ FlowPending
    (Some (<[ "service-account.json" := Unreadable ]>
             {[ ".gdrive-server-credentials.json" := JsonObject fresh_creds ]})) [].

(** The stored expiry date is beyond the range of time values. *)
Definition far_creds : Credentials :=
  sample_creds (SStr "1//refresh") 9000000000000000 "ya29.far".

Definition world_far_expiry : World :=
  sample_world ∅ FlowPending (oauth_file far_creds) [Some fresh_creds].


(** The browser flow rejects after one second. *)
Definition world_flow_rejects : World :=
  sample_world ∅ (FlowRejects 1000) None [].

(** ** Further observations and sample worlds *)

(** The entry [name] of the credentials directory, when there is one. *)
Definition file_at (name : string) (w : World) : option FileData :=
  creds_dir w ≫= (fun d => d !! name).

(** The credential file holds the JSON value [null]. *)
Definition world_null_json : World :=
  sample_world ∅ FlowPending
    (Some {[ ".gdrive-server-credentials.json" := JsonNull ]}) [Some fresh_creds].

(** The credential file cannot be parsed. *)
Definition world_unreadable : World :=
  sample_world ∅ FlowPending
    (Some {[ ".gdrive-server-credentials.json" := Unreadable ]}) [Some fresh_creds].

(** A stored record without [expiry_date]. *)
Definition no_expiry_creds : Credentials :=
  {| refresh_token := SStr "1//refresh"; expiry_date := NUndefined;
     access_token := SStr "ya29.noexp"; token_type := SStr "Bearer";
     id_token := SUndefined; scope := SUndefined |}.

Definition world_no_expiry : World :=
  sample_world ∅ FlowPending (oauth_file no_expiry_creds) [Some fresh_creds].

(** A stored record that expires in five minutes to the millisecond. *)
Definition boundary_creds : Credentials :=
  sample_creds (SStr "1//refresh") (sample_now + 300000) "ya29.edge".

Definition world_boundary : World :=
  sample_world ∅ FlowPending (oauth_file boundary_creds) [Some fresh_creds].

(** The credentials directory without the OAuth credential file. *)
Definition other_files (w : World) : option (gmap string FileData) :=
  delete ".gdrive-server-credentials.json" <$> creds_dir w.

Definition is_timer (e : Event) : bool :=
  match e with EvSetInterval _ => true | _ => false end.

(** Timers registered so far. *)
Definition timers (w : World) : nat := count_events is_timer (trace w).

(** The events of the authentication functions: anything but connecting
    the server, registering a timer or leaving the process. *)
Definition auth_event (e : Event) : bool :=
  match e with
  | EvConnect | EvSetInterval _ | EvExit _ => false
  | _ => true
  end.

(** The trace of [w'] is the trace of [w] with events of kind [P] added. *)
Definition extends_by (P : Event -> bool) (w w' : World) : Prop :=
  exists evs, trace w' = (evs ++ trace w)%list /\ forallb P evs = true.

(** The browser flow and the refresh after it succeed; the credentials
    directory does not exist yet and can be created. *)
Definition world_first_run : World :=
  sample_world ∅ (FlowResolves 5000 refreshable_client) None [Some fresh_creds].


(** Connecting the transport fails. *)
Definition world_no_transport : World :=
  {| env := ∅; serviceAccountPath := InCredsDir "service-account.json";
     dir_creatable := true; outside := ∅;
     auth_flow := FlowPending; connect_ok := false;
     creds_dir := oauth_file fresh_creds; now := sample_now;
     refresh_responses := [];
     google_auth := None; trace := [] |}.

(** The credentials directory is missing and cannot be created. *)
Definition world_locked : World :=
  {| env := ∅; serviceAccountPath := InCredsDir "service-account.json";
     dir_creatable := false; outside := ∅;
     auth_flow := FlowResolves 5000 refreshable_client; connect_ok := true;
     creds_dir := None; now := sample_now;
     refresh_responses := [Some fresh_creds];
     google_auth := None; trace := [] |}.

(** ** Moving a world along a relation *)

(** [m] moves every world along [R]. *)
Definition keeps (R : World -> World -> Prop) {A} (m : M A) : Prop :=
  forall w, R w (world_after m w).

(** [m] returns on every world: it never throws. *)
Definition total {A} (m : M A) : Prop :=
  forall w, exists a, result_of m w = Ok a.

(** The footprint of the authentication functions: the events added are
    those of authentication; the configuration, the paths outside the
    credentials directory and the installed default credentials are left
    alone; inside the credentials directory only the OAuth credential file
    can change. *)
Record auth_footprint (w w' : World) : Prop := {
  af_trace : extends_by auth_event w w';
  af_env : env w' = env w;
  af_service_account_path : serviceAccountPath w' = serviceAccountPath w;
  af_dir_creatable : dir_creatable w' = dir_creatable w;
  af_outside : outside w' = outside w;
  af_auth_flow : auth_flow w' = auth_flow w;
  af_connect_ok : connect_ok w' = connect_ok w;
  af_google_auth : google_auth w' = google_auth w;
  af_files : forall n, n <> ".gdrive-server-credentials.json" ->
                       file_at n w' = file_at n w;
}.

(** ** JavaScript strings *)

(** The line feed, and the separator ["\n\n"] of the tool responses. *)
Definition LF : ascii := ascii_of_nat 10.
Definition blank_line : string := String LF (String LF EmptyString).

(** [`${v}`]: how a template literal renders a value of type
    [string | null | undefined]. *)
Definition template (v : JsString) : string :=
  match v with
  | SUndefined => "undefined"
  | SNull => "null"
  | SStr s => s
  end.

(** [a || b] on values of type [string | null | undefined]. *)
Definition js_or (a b : JsString) : JsString := if truthy a then a else b.

(** [s] without the prefix [p], when [s] starts with [p]. *)
Fixpoint strip_prefix (p s : string) : option string :=
  match p, s with
  | EmptyString, _ => Some s
  | String a p', String b s' => if Ascii.eqb a b then strip_prefix p' s' else None
  | String _ _, EmptyString => None
  end.

(** [s.startsWith(p)]. *)
Definition startsWith (s p : string) : bool :=
  match strip_prefix p s with Some _ => true | None => false end.

(** [s.replace(pattern, replacement)] with a string pattern: the first
    occurrence is replaced (the replacements of the code contain no [$]). *)
Fixpoint replace_first (pattern replacement s : string) : string :=
  match strip_prefix pattern s with
  | Some rest => replacement ++ rest
  | None =>
      match s with
      | EmptyString => EmptyString
      | String c s' => String c (replace_first pattern replacement s')
      end
  end.

(** Puts [c] in front of the first part. *)
Definition cons_to_first (c : ascii) (parts : list string) : list string :=
  match parts with
  | [] => [String c EmptyString]
  | p :: ps => String c p :: ps
  end.

(** [s.split("\n\n")]: the parts between the occurrences of the separator,
    found from left to right. *)
Fixpoint split_blank_line (s : string) : list string :=
  match s with
  | EmptyString => [EmptyString]
  | String c rest =>
      match rest with
      | String c' rest' =>
          if Ascii.eqb c LF && Ascii.eqb c' LF
          then EmptyString :: split_blank_line rest'
          else cons_to_first c (split_blank_line rest)
      | EmptyString => cons_to_first c (split_blank_line rest)
      end
  end.

(** [parts.join("\n\n")]. *)
Fixpoint join_blank_line (parts : list string) : string :=
  match parts with
  | [] => EmptyString
  | [p] => p
  | p :: ps => p ++ blank_line ++ join_blank_line ps
  end.

(** ** The Drive API and the tools *)

(** A call to the remote API resolves with data or rejects with an error,
    of which the code reads the [message]. *)
Inductive ApiResult (A : Type) := ApiOk (a : A) | ApiError (message : string).
Arguments ApiOk {A} a.
Arguments ApiError {A} message.

(** The fields of [file.data] that the code reads. *)
Record FileMetadata := {
  meta_id : JsString;
  meta_name : JsString;
  meta_mimeType : JsString;
}.

(** [Buffer.from(res.data)], through the views the code takes of it:
    [toString("utf-8")], [toString("base64")] and [length]. *)
Record Buffer := {
  buf_utf8 : string;
  buf_base64 : string;
  buf_length : N;
}.

(** The parameters of [drive.files.list]. *)
Record ListParams := {
  lp_pageSize : Z;
  lp_fields : string;
  lp_supportsAllDrives : bool;
  lp_includeItemsFromAllDrives : bool;
  lp_pageToken : option string;
}.

(** [res.data] of [drive.files.list]. *)
Record FileList := {
  fl_files : option (list FileMetadata);
  fl_nextPageToken : JsString;
}.

(** The remote service.  Every call is made with the default credentials
    installed by [google.options({ auth })] at that moment. *)
Record Drive := {
  files_get : option Handle -> string -> ApiResult FileMetadata;
  files_export : option Handle -> string -> string -> ApiResult string;
  files_get_media : option Handle -> string -> ApiResult Buffer;
  files_list : option Handle -> ListParams -> ApiResult FileList;
}.

(** [interface FileContent]. *)
Record FileContent := {
  fc_mimeType : string;
  fc_text : JsString;
  fc_blob : JsString;
}.

(** [InternalToolResponse]: the [text] of each item of [content], and
    [isError]. *)
Record ToolResponse := {
  tr_content : list string;
  tr_isError : bool;
}.

Definition google_apps_prefix : string := "application/vnd.google-apps".

(** The [switch] on the MIME type of a Google Workspace file. *)
Definition exportMimeTypeOf (mimeType : string) : string :=
  if String.eqb mimeType "application/vnd.google-apps.document" then "text/markdown"
  else if String.eqb mimeType "application/vnd.google-apps.spreadsheet" then "text/csv"
  else if String.eqb mimeType "application/vnd.google-apps.presentation" then "text/plain"
  else if String.eqb mimeType "application/vnd.google-apps.drawing" then "image/png"
  else "text/plain".

(** [file.data.mimeType?.startsWith("application/vnd.google-apps")]. *)
Definition isGoogleApps (mimeType : JsString) : bool :=
  match mimeType with
  | SStr m => startsWith m google_apps_prefix
  | _ => false
  end.

(** [mimeType.startsWith("text/") || mimeType === "application/json"]. *)
Definition isTextMime (mimeType : string) : bool :=
  startsWith mimeType "text/" || String.eqb mimeType "application/json".

(** The version of the tool in [src/unnamed/part_001].  Writes to the
    standard output ([console.log]) are not part of the trace. *)
Module Part001.

(** [readGoogleDriveFile(fileId)]. *)
Definition readGoogleDriveFile (drive : Drive) (auth : option Handle)
    (fileId : string) : ApiResult (string * FileContent) :=
  match files_get drive auth fileId with
  | ApiError m => ApiError m
  | ApiOk file =>
      if isGoogleApps (meta_mimeType file) then
        let exportMimeType := exportMimeTypeOf (template (meta_mimeType file)) in
        match files_export drive auth fileId exportMimeType with
        | ApiError m => ApiError m
        | ApiOk data =>
            ApiOk (template (js_or (meta_name file) (SStr fileId)),
                   {| fc_mimeType := exportMimeType;
                      fc_text := SStr data; fc_blob := SUndefined |})
        end
      else
        match files_get_media drive auth fileId with
        | ApiError m => ApiError m
        | ApiOk content =>
            let mimeType :=
              template (js_or (meta_mimeType file) (SStr "application/octet-stream")) in
            let isText := isTextMime mimeType in
            ApiOk (template (js_or (meta_name file) (SStr fileId)),
                   {| fc_mimeType := mimeType;
                      fc_text := if isText then SStr (buf_utf8 content) else SUndefined;
                      fc_blob := if isText then SUndefined else SStr (buf_base64 content) |})
        end
  end.

(** [readFile(args)], with [args.fileId] a string. *)
Definition readFile (drive : Drive) (fileId : string) : M ToolResponse :=
  auth ← gets google_auth;
  match readGoogleDriveFile drive auth fileId with
  | ApiOk (name, contents) =>
      mret {| tr_content :=
                [ "Contents of " ++ name ++ ":" ++ blank_line
                    ++ template (js_or (fc_text contents) (fc_blob contents)) ];
              tr_isError := false |}
  | ApiError message =>
      log "Error reading file";;
      mret {| tr_content := [ "Error reading file: " ++ message ];
              tr_isError := true |}
  end.

End Part001.

(** [x.toFixed(1)] for [x = num / den] with [den] a power of two (such
    quotients of integers below 2^53 are exact): the closest number of
    tenths, the larger one on a tie, printed with one decimal. *)
Definition tenths (num den : N) : N := ((20 * num + den) / (2 * den))%N.

Definition toFixed1 (num den : N) : string :=
  pretty (tenths num den / 10)%N ++ "." ++ pretty (tenths num den mod 10)%N.

(** The version of the tool in [src/tools/gdrive_read_file.ts]. *)
Module GdriveReadFile.

(** [formatFileSize(bytes)], for the length of a buffer: an integer below
    2^53, on which the divisions are exact and [toFixed] prints in decimal
    notation. *)
Definition formatFileSize (bytes : N) : string :=
  if (bytes <? 1024)%N then pretty bytes ++ " bytes"
  else if (bytes <? 1024 * 1024)%N then toFixed1 bytes 1024 ++ " KB"
  else if (bytes <? 1024 * 1024 * 1024)%N then toFixed1 bytes (1024 * 1024) ++ " MB"
  else toFixed1 bytes (1024 * 1024 * 1024) ++ " GB".

Section WithReplacements.

(** The four regular-expression replacements of
    [truncateBase64Content], applied one after the other to a non-empty
    text.  They are not modelled: what follows holds whatever they
    do. *)
Variable replaceBase64 : string -> string.

(** [truncateBase64Content(text)]. *)
Definition truncateBase64Content (text : string) : string :=
  if String.eqb text "" then text else replaceBase64 text.

(** [readGoogleDriveFile(fileId)]. *)
Definition readGoogleDriveFile (drive : Drive) (auth : option Handle)
    (fileId : string) : ApiResult (string * FileContent) :=
  match files_get drive auth fileId with
  | ApiError m => ApiError m
  | ApiOk file =>
      if isGoogleApps (meta_mimeType file) then
        let exportMimeType := exportMimeTypeOf (template (meta_mimeType file)) in
        match files_export drive auth fileId exportMimeType with
        | ApiError m => ApiError m
        | ApiOk data =>
            ApiOk (template (js_or (meta_name file) (SStr fileId)),
                   {| fc_mimeType := exportMimeType;
                      fc_text := SStr (truncateBase64Content data);
                      fc_blob := SUndefined |})
        end
      else
        match files_get_media drive auth fileId with
        | ApiError m => ApiError m
        | ApiOk content =>
            let mimeType :=
              template (js_or (meta_mimeType file) (SStr "application/octet-stream")) in
            let isText := isTextMime mimeType in
            ApiOk (template (js_or (meta_name file) (SStr fileId)),
                   {| fc_mimeType := mimeType;
                      fc_text :=
                        if isText
                        then SStr (truncateBase64Content (buf_utf8 content))
                        else SUndefined;
                      fc_blob :=
                        if isText then SUndefined
                        else SStr ("[BINARY_DATA_TRUNCATED - "
                                     ++ formatFileSize (buf_length content) ++ "]") |})
        end
  end.

(** The text shown for the contents: [text ? truncateBase64Content(text)
    : (blob ? '[BINARY_DATA_TRUNCATED]' : 'No content available')]. *)
Definition shownContents (contents : FileContent) : string :=
  if truthy (fc_text contents)
  then truncateBase64Content (template (fc_text contents))
  else if truthy (fc_blob contents) then "[BINARY_DATA_TRUNCATED]"
  else "No content available".

(** [readFile(args)], with [args.fileId] a string. *)
Definition readFile (drive : Drive) (fileId : string) : M ToolResponse :=
  auth ← gets google_auth;
  match readGoogleDriveFile drive auth fileId with
  | ApiOk (name, contents) =>
      mret {| tr_content :=
                [ "Contents of " ++ name ++ ":" ++ blank_line ++ shownContents contents ];
              tr_isError := false |}
  | ApiError message =>
      log "Error reading file";;
      mret {| tr_content := [ "Error reading file: " ++ message ];
              tr_isError := true |}
  end.

End WithReplacements.

End GdriveReadFile.

(** ** The request handlers of index.ts *)

(** A request handler returns a result or rejects with an error, of which
    the message is kept. *)
Inductive Reply (A : Type) := Returned (a : A) | Rejected (message : string).
Arguments Returned {A} a.
Arguments Rejected {A} message.

Definition Handler (A : Type) : Type := World -> Reply A * World.

Definition h_ret {A} (a : A) : Handler A := fun w => (Returned a, w).

Definition h_bind {A B} (m : Handler A) (f : A -> Handler B) : Handler B := fun w =>
  match m w with
  | (Returned a, w') => f a w'
  | (Rejected message, w') => (Rejected message, w')
  end.

Definition h_throw {A} (message : string) : Handler A := fun w => (Rejected message, w).

(** [try { body } catch (error) { handler(error) }]. *)
Definition h_try {A} (body : Handler A) (handler : string -> Handler A) : Handler A := fun w =>
  match body w with
  | (Returned a, w') => (Returned a, w')
  | (Rejected message, w') => handler message w'
  end.

(** A computation of auth.ts inside a handler. *)
Definition lift {A} (m : M A) : Handler A := fun w =>
  match m w with
  | (Ok a, w') => (Returned a, w')
  | (Throw e, w') => (Rejected (error_message e), w')
  end.

(** [await] on a call to the remote API. *)
Definition api {A} (r : ApiResult A) : Handler A :=
  match r with
  | ApiOk a => h_ret a
  | ApiError message => h_throw message
  end.

Notation "'let*' x ':=' m 'in' k" := (h_bind m (fun x => k))
  (at level 10, x name, m at level 100, k at level 200).

Definition reply_of {A} (h : Handler A) (w : World) : Reply A := fst (h w).
Definition world_of {A} (h : Handler A) (w : World) : World := snd (h w).

(** An item of [resources] in the answer to a list request. *)
Record Resource := {
  res_uri : string;
  res_mimeType : JsString;
  res_name : JsString;
}.

(** An item of [contents] in the answer to a read request. *)
Record ResourceContents := {
  rc_uri : string;
  rc_mimeType : string;
  rc_text : string;
}.

(** [`gdrive:///${file.id}`]. *)
Definition resourceUri (file : FileMetadata) : string :=
  "gdrive:///" ++ template (meta_id file).

(** [request.params.uri.replace("gdrive:///", "")]. *)
Definition fileIdOfUri (uri : string) : string := replace_first "gdrive:///" "" uri.

(** [parts.length > 1 ? parts.slice(1).join("\n\n") : parts[0]] for
    [parts = text.split("\n\n")]. *)
Definition fileContentsOf (text : string) : string :=
  let parts := split_blank_line text in
  if (1 <? length parts)%nat then join_blank_line (tail parts)
  else hd EmptyString parts.

Definition listParams (cursor : JsString) : ListParams :=
  {| lp_pageSize := 10;
     lp_fields := "nextPageToken, files(id, name, mimeType, driveId, parents)";
     lp_supportsAllDrives := true;
     lp_includeItemsFromAllDrives := true;
     lp_pageToken := if truthy cursor then Some (template cursor) else None |}.

(** The handler of [ListResourcesRequestSchema], for [request.params?.cursor]. *)
Definition handleListResources (drive : Drive) (cursor : JsString)
    : Handler (list Resource * JsString) :=
  h_try
    (let* _ := lift ensureAuthQuietly in
     let* auth := lift (gets google_auth) in
     let* res := api (files_list drive auth (listParams cursor)) in
     let* files := match fl_files res with
                   | Some l => h_ret l
                   | None => h_throw "TypeError: Cannot read properties of undefined (reading 'map')"
                   end in
     h_ret (map (fun file => {| res_uri := resourceUri file;
                                res_mimeType := meta_mimeType file;
                                res_name := meta_name file |}) files,
            fl_nextPageToken res))
    (fun error =>
       let* _ := lift (log "Error listing resources:") in
       h_throw error).

(** The handler of [ReadResourceRequestSchema], for [request.params.uri].
    The registry of tools is not part of the sources at hand: the handler of
    its second entry, applied to [{ fileId }], is the parameter
    [readFileTool]. *)
Definition handleReadResource (readFileTool : string -> Handler ToolResponse)
    (uri : string) : Handler (list ResourceContents) :=
  h_try
    (let* _ := lift ensureAuthQuietly in
     let fileId := fileIdOfUri uri in
     let* result := readFileTool fileId in
     let* text := match tr_content result with
                  | t :: _ => h_ret t
                  | [] => h_throw "TypeError: Cannot read properties of undefined (reading 'text')"
                  end in
     if tr_isError result then
       let* _ := lift (log "Error reading resource") in
       h_throw text
     else
       h_ret [ {| rc_uri := uri; rc_mimeType := "text/plain";
                  rc_text := fileContentsOf text |} ])
    (fun error =>
       let* _ := lift (log "Error in ReadResourceRequestSchema handler:") in
       h_throw error).

(** An entry of the registry of tools, for arguments of type [Args]. *)
Record Tool (Args : Type) := {
  tool_name : string;
  tool_description : string;
  tool_handler : Args -> Handler ToolResponse;
}.
Arguments tool_name {Args} _.
Arguments tool_description {Args} _.
Arguments tool_handler {Args} _ _.

(** The answer in the format of the SDK: [{ _meta: {}, content, isError }]. *)
Record SdkResponse := {
  sdk_content : list string;
  sdk_isError : bool;
}.

(** [convertToolResponse(response)]. *)
Definition convertToolResponse (response : ToolResponse) : SdkResponse :=
  {| sdk_content := tr_content response; sdk_isError := tr_isError response |}.

(** The handler of [CallToolRequestSchema], for [request.params.name] and
    [request.params.arguments], over a registry [tools]. *)
Definition handleCallTool {Args : Type} (tools : list (Tool Args))
    (name : string) (arguments : Args) : Handler SdkResponse :=
  let* _ := lift ensureAuth in
  match find (fun t => String.eqb (tool_name t) name) tools with
  | None => h_throw "Tool not found"
  | Some tool =>
      let* result := tool_handler tool arguments in
      h_ret (convertToolResponse result)
  end.

(** No two line feeds in a row. *)
Fixpoint no_blank_line (s : string) : bool :=
  match s with
  | EmptyString => true
  | String c rest =>
      match rest with
      | String c' _ => negb (Ascii.eqb c LF && Ascii.eqb c' LF) && no_blank_line rest
      | EmptyString => true
      end
  end.

(** A remote service for the examples: one text file, one drawing, one
    archive, and nothing else. *)
Definition sample_drive : Drive :=
  {| files_get := fun _ fileId =>
       if String.eqb fileId "notes" then
         ApiOk {| meta_id := SStr "notes"; meta_name := SStr "notes.txt";
                  meta_mimeType := SStr "text/plain" |}
       else if String.eqb fileId "sketch" then
         ApiOk {| meta_id := SStr "sketch"; meta_name := SStr "Sketch";
                  meta_mimeType := SStr "application/vnd.google-apps.drawing" |}
       else if String.eqb fileId "archive" then
         ApiOk {| meta_id := SStr "archive"; meta_name := SUndefined;
                  meta_mimeType := SUndefined |}
       else ApiError "File not found";
     files_export := fun _ _ _ => ApiOk "";
     files_get_media := fun _ fileId =>
       if String.eqb fileId "notes" then
         ApiOk {| buf_utf8 := "first" ++ blank_line ++ "second";
                  buf_base64 := "Zmlyc3QKCnNlY29uZA=="; buf_length := 13 |}
       else ApiOk {| buf_utf8 := "PK"; buf_base64 := "UEs="; buf_length := 2 |};
     files_list := fun _ params =>
       ApiOk {| fl_files :=
                  Some [ {| meta_id := SStr "notes"; meta_name := SStr "notes.txt";
                            meta_mimeType := SStr "text/plain" |};
                         {| meta_id := SStr "sketch"; meta_name := SStr "Sketch";
                            meta_mimeType := SStr "application/vnd.google-apps.drawing" |} ];
                fl_nextPageToken := SUndefined |} |}.

(** A registry with the read tool of part_001 as only entry; the arguments
    of a call are the file id. *)
Definition sample_tools : list (Tool string) :=
  [ {| tool_name := "gdrive_read_file";
       tool_description := "Read contents of a file from Google Drive";
       tool_handler := fun fileId => lift (Part001.readFile sample_drive fileId) |} ].





Definition ancient_stale_creds : Credentials :=
  sample_creds SUndefined (-9000000000000000) "ya29.ancient".

Definition world_ancient_stale : World :=
  sample_world ∅ FlowPending (oauth_file ancient_stale_creds) [Some fresh_creds].

(** ** Properties *)

Arguments existsSync : simpl never.
Arguments new_Date : simpl never.
Arguments hasRefreshToken : simpl never.
Arguments getValidCredentials : simpl never.
Arguments loadCredentialsQuietly : simpl never.
Arguments authenticateAndSaveCredentials : simpl never.

(** Unfolds the monad so that [cbn] can run the code on a symbolic world. *)
Ltac unfold_monad :=
  unfold mbind, M_bind, mret, M_ret, try_catch, throw, gets, modify in *.

(** [getAuthType] as one equation: it reads the world and leaves it as it
    is. *)
Lemma getAuthType_run (w : World) :
  getAuthType w =
  (Ok (if bool_decide (env w !! "USE_SERVICE_ACCOUNT" = Some "true")
       then SERVICE_ACCOUNT
       else if existsSync (serviceAccountPath w) w
               && negb (existsSync oauthCredentialsPath w)
            then SERVICE_ACCOUNT else OAUTH), w).
Proof.
  unfold getAuthType, getenv, fs_existsSync. unfold_monad. cbn.
  destruct (bool_decide _); [reflexivity|].
  destruct (existsSync (serviceAccountPath w) w),
           (existsSync oauthCredentialsPath w); reflexivity.
Qed.

(** C1: [getAuthType()] returns SERVICE_ACCOUNT exactly when
    USE_SERVICE_ACCOUNT is the string "true", or the service-account key file
    exists and the OAuth credential file does not; in every other state it
    returns OAUTH.  It changes nothing. *)
Theorem getAuthType_spec (w : World) :
  let forced := env w !! "USE_SERVICE_ACCOUNT" = Some "true" in
  let only_key_file :=
    existsSync (serviceAccountPath w) w = true /\
    existsSync oauthCredentialsPath w = false in
  world_after getAuthType w = w /\
  (result_of getAuthType w = Ok SERVICE_ACCOUNT <-> forced \/ only_key_file) /\
  (result_of getAuthType w = Ok OAUTH <-> ~ (forced \/ only_key_file)).
Proof.
  unfold result_of, world_after. rewrite getAuthType_run. cbn.
  destruct (bool_decide_reflect (env w !! "USE_SERVICE_ACCOUNT" = Some "true"))
    as [Hforced|Hfree].
  - intuition (try discriminate).
  - destruct (existsSync (serviceAccountPath w) w),
             (existsSync oauthCredentialsPath w); cbn;
      intuition (try discriminate; try congruence).
Qed.

Example getAuthType_nothing_configured :
  result_of getAuthType world_blank = Ok OAUTH.
Proof. vm_compute. reflexivity. Qed.

Example getAuthType_key_file_only :
  result_of getAuthType world_key_file = Ok SERVICE_ACCOUNT.
Proof. vm_compute. reflexivity. Qed.

Example getAuthType_both_files :
  result_of getAuthType world_both_files = Ok OAUTH.
Proof. vm_compute. reflexivity. Qed.

(** C2, as stated, fails: with USE_SERVICE_ACCOUNT=true the mode is
    SERVICE_ACCOUNT although the service-account key file does not exist. *)
Lemma getAuthType_forced_without_key_file :
  existsSync (serviceAccountPath world_forced) world_forced = false /\
  result_of getAuthType world_forced = Ok SERVICE_ACCOUNT /\
  result_of getAuthType world_forced <> Ok OAUTH.
Proof.
  split; [vm_compute; reflexivity|].
  split; [vm_compute; reflexivity|].
  vm_compute. discriminate.
Qed.

(** C2, amended: when the service-account key file does not exist and
    USE_SERVICE_ACCOUNT is not the string "true", [getAuthType()] returns
    OAUTH. *)
Theorem getAuthType_no_key_file (w : World) :
  existsSync (serviceAccountPath w) w = false ->
  env w !! "USE_SERVICE_ACCOUNT" <> Some "true" ->
  result_of getAuthType w = Ok OAUTH.
Proof.
  intros Hkey Hfree. unfold result_of. rewrite getAuthType_run. cbn.
  rewrite Hkey. rewrite bool_decide_eq_false_2 by exact Hfree. reflexivity.
Qed.

Lemma getAuthType_no_key_file_witness :
  existsSync (serviceAccountPath world_blank) world_blank = false /\
  env world_blank !! "USE_SERVICE_ACCOUNT" <> Some "true" /\
  result_of getAuthType world_blank = Ok OAUTH.
Proof.
  assert (Hkey : existsSync (serviceAccountPath world_blank) world_blank = false)
    by (vm_compute; reflexivity).
  assert (Hfree : env world_blank !! "USE_SERVICE_ACCOUNT" <> Some "true")
    by (vm_compute; discriminate).
  split; [exact Hkey|]. split; [exact Hfree|].
  exact (getAuthType_no_key_file world_blank Hkey Hfree).
Defined.

(** *** Running the quiet OAuth load *)

Ltac unfold_auth :=
  unfold loadCredentialsQuietly, loadOAuthCredentialsQuietly,
    authenticateWithServiceAccount, authenticateAndSaveCredentials,
    authenticateWithTimeout, ensureCredsDirectory, getAuthType,
    race_authenticate, refreshAccessToken, fs_writeFileSync, read_json,
    fs_mkdirSync_CREDS_DIR, fs_existsSync, getenv, Date_now, toISOString,
    google_options, server_connect, process_exit, log, emit in *.

Ltac unfold_observations :=
  unfold result_of, world_after, refresh_attempts, disk_writes,
    interactive_flows, process_exits, connects, service_account_attempts,
    stored_credentials, oauth_handle, refresh_fails in *.

(** Symbolic execution on a world given by its fields. *)
Ltac exec :=
  unfold_observations; unfold_auth; unfold_monad;
  unfold existsSync, oauthCredentialsPath, timeToExpiry in *; cbn in *.

(** Runs on, using what is known of the credential file. *)
Ltac run_with H := repeat (progress (cbn; rewrite ?H)).

Lemma stored_credentials_inv (w : World) (data : FileData) :
  stored_credentials w = Some data ->
  exists d, creds_dir w = Some d /\
            d !! ".gdrive-server-credentials.json" = Some data.
Proof.
  unfold stored_credentials.
  destruct (creds_dir w) as [d|]; cbn; [|discriminate].
  intros H. exists d. split; [reflexivity|exact H].
Qed.





(** *** What the quiet paths leave alone *)

Lemma is_Some_overwrite (d : gmap string FileData) (k n : string) (v old : FileData) :
  d !! k = Some old ->
  bool_decide (is_Some (<[k := v]> d !! n)) = bool_decide (is_Some (d !! n)).
Proof.
  intros Hold. apply bool_decide_ext.
  destruct (decide (k = n)) as [->|Hne].
  - rewrite lookup_insert_eq, Hold. split; eauto.
  - rewrite lookup_insert_ne by exact Hne. reflexivity.
Qed.

(** Every path through [loadOAuthCredentialsQuietly]: it never throws, it
    respects the frame, and either it attempts no refresh and leaves the
    disk alone, or it attempts exactly one, and then a failed refresh gives
    null and leaves the disk alone. *)
Lemma loadOAuthCredentialsQuietly_cases (w : World) :
  let w' := world_after loadOAuthCredentialsQuietly w in
  quiet_frame w w' /\
  (exists r, result_of loadOAuthCredentialsQuietly w = Ok r) /\
  ((refresh_attempts w' = refresh_attempts w /\
    creds_dir w' = creds_dir w /\ disk_writes w' = disk_writes w) \/
   (refresh_attempts w' = S (refresh_attempts w) /\
    (refresh_fails w = true ->
     result_of loadOAuthCredentialsQuietly w = Ok None /\
     creds_dir w' = creds_dir w /\ disk_writes w' = disk_writes w))).
Proof.
  destruct w as [e sap dc out flow cok cd t rr ga tr].
  destruct cd as [d|];
    [destruct (d !! ".gdrive-server-credentials.json") as [[| |c]|] eqn:Hfile|].
  all: exec; run_with Hfile.
  3: { destruct (new_Date (expiry_date c)) as [ex|] eqn:Hdate; cbn.
       - destruct (ex - t <? fiveMinutes) eqn:Hlt;
           destruct (hasRefreshToken c) eqn:Htoken; cbn;
           [destruct rr as [|[newCreds|] rest]; run_with Hfile|..].
         all: split; [constructor; try reflexivity|].
         all: try (intros [n|q]; unfold existsSync; cbn; try reflexivity;
                   eapply is_Some_overwrite; eassumption).
         all: split; [eexists; reflexivity|].
         all: try (left; repeat split; reflexivity).
         all: right; split; [reflexivity|]; intros Hfail;
           try discriminate Hfail; repeat split; reflexivity.
       - split; [constructor; reflexivity|].
         split; [eexists; reflexivity|]. left. repeat split; reflexivity. }
  all: split; [constructor; reflexivity|].
  all: split; [eexists; reflexivity|]; left; repeat split; reflexivity.
Qed.

Lemma loadOAuthCredentialsQuietly_frame (w : World) :
  quiet_frame w (world_after loadOAuthCredentialsQuietly w).
Proof. apply loadOAuthCredentialsQuietly_cases. Qed.

Lemma loadOAuthCredentialsQuietly_returns (w : World) :
  exists r, result_of loadOAuthCredentialsQuietly w = Ok r.
Proof. apply loadOAuthCredentialsQuietly_cases. Qed.

(** C4: when [loadOAuthCredentialsQuietly()] attempts a refresh and the
    refresh fails, it returns null and the credential file is as it was: no
    write is performed. *)
Theorem loadOAuthCredentialsQuietly_refresh_failure (w : World) :
  let w' := world_after loadOAuthCredentialsQuietly w in
  refresh_attempts w' <> refresh_attempts w ->
  refresh_fails w = true ->
  result_of loadOAuthCredentialsQuietly w = Ok None /\
  creds_dir w' = creds_dir w /\
  stored_credentials w' = stored_credentials w /\
  disk_writes w' = disk_writes w.
Proof.
  intros w' Hattempt Hfail.
  destruct (loadOAuthCredentialsQuietly_cases w) as (_ & _ & [Hnone|[_ Hone]]).
  - destruct Hnone as [Hsame _]. contradiction.
  - destruct (Hone Hfail) as (Hnull & Hdir & Hwrites).
    repeat split; try assumption.
    subst w'. unfold stored_credentials. now rewrite Hdir.
Qed.

Lemma loadOAuthCredentialsQuietly_refresh_failure_witness :
  refresh_attempts (world_after loadOAuthCredentialsQuietly world_expiring_fail)
    <> refresh_attempts world_expiring_fail /\
  refresh_fails world_expiring_fail = true /\
  result_of loadOAuthCredentialsQuietly world_expiring_fail = Ok None /\
  stored_credentials (world_after loadOAuthCredentialsQuietly world_expiring_fail)
    = Some (JsonObject expiring_creds).
Proof.
  assert (H1 : refresh_attempts (world_after loadOAuthCredentialsQuietly world_expiring_fail)
               <> refresh_attempts world_expiring_fail)
    by (vm_compute; discriminate).
  assert (H2 : refresh_fails world_expiring_fail = true) by (vm_compute; reflexivity).
  destruct (loadOAuthCredentialsQuietly_refresh_failure world_expiring_fail H1 H2)
    as (Hnull & _ & Hstored & _).
  split; [exact H1|]. split; [exact H2|]. split; [exact Hnull|].
  rewrite Hstored. vm_compute. reflexivity.
Defined.

(** A run without refresh: the stored record has a valid expiry date, and
    is not both expiring and refreshable. *)
Lemma loadOAuthCredentialsQuietly_as_stored (w : World) (c : Credentials) (remaining : Z) :
  stored_credentials w = Some (JsonObject c) ->
  timeToExpiry c (Some (now w)) = Some remaining ->
  (remaining <? fiveMinutes) && hasRefreshToken c = false ->
  let w' := world_after loadOAuthCredentialsQuietly w in
  result_of loadOAuthCredentialsQuietly w = Ok (Some (oauth_handle w c)) /\
  refresh_attempts w' = refresh_attempts w /\
  disk_writes w' = disk_writes w /\
  creds_dir w' = creds_dir w.
Proof.
  intros Hstored Htime Hcond.
  destruct (stored_credentials_inv _ _ Hstored) as (d & Hdir & Hfile).
  destruct w as [e sap dc out flow cok cd t rr ga tr].
  unfold timeToExpiry in Htime. cbn in Hdir, Htime. subst cd.
  destruct (new_Date (expiry_date c)) as [ex|] eqn:Hdate; [|discriminate Htime].
  cbn in Htime. injection Htime as <-.
  exec. run_with Hfile. rewrite Hdate. cbn. rewrite Hcond. cbn.
  repeat split; reflexivity.
Qed.

(** A record whose [expiry_date] is not a valid time value (missing, or
    beyond 8.64e15 ms from the epoch) is neither expiring nor fresh: logging
    its ISO date throws, and the quiet load gives null without any refresh
    or write. *)
Lemma loadOAuthCredentialsQuietly_invalid_expiry (w : World) (c : Credentials) :
  stored_credentials w = Some (JsonObject c) ->
  new_Date (expiry_date c) = None ->
  let w' := world_after loadOAuthCredentialsQuietly w in
  result_of loadOAuthCredentialsQuietly w = Ok None /\
  refresh_attempts w' = refresh_attempts w /\
  disk_writes w' = disk_writes w /\
  creds_dir w' = creds_dir w.
Proof.
  intros Hstored Hdate.
  destruct (stored_credentials_inv _ _ Hstored) as (d & Hdir & Hfile).
  destruct w as [e sap dc out flow cok cd t rr ga tr].
  cbn in Hdir. subst cd.
  exec. run_with Hfile. rewrite Hdate. cbn.
  repeat split; reflexivity.
Qed.

(** C9, as stated, fails: a stored [expiry_date] of 9e15 ms is more than
    five minutes in the future, but it is beyond the range of time values:
    [toISOString()] throws while the expiry status is logged and the result
    is null, not a handle built from the stored record. *)
Lemma loadOAuthCredentialsQuietly_far_expiry_gives_null :
  stored_credentials world_far_expiry = Some (JsonObject far_creds) /\
  expiry_date far_creds = NNum 9000000000000000 /\
  now world_far_expiry + fiveMinutes < 9000000000000000 /\
  result_of loadOAuthCredentialsQuietly world_far_expiry = Ok None /\
  result_of loadOAuthCredentialsQuietly world_far_expiry
    <> Ok (Some (oauth_handle world_far_expiry far_creds)) /\
  refresh_attempts (world_after loadOAuthCredentialsQuietly world_far_expiry) = 0%nat.
Proof.
  repeat split; try (vm_compute; reflexivity).
  vm_compute. discriminate.
Qed.

(** C9, amended: a stored record whose [expiry_date] is a valid time value
    [expiry] (a number of at most 8.64e15 ms in absolute value) more than
    five minutes ahead is returned as it is, with no refresh attempt and no
    disk write; a second call right after, at any time that still leaves
    more than five minutes, returns a handle with the same credentials,
    again with no refresh and no write. *)
Theorem loadOAuthCredentialsQuietly_fresh (w : World) (c : Credentials) (expiry : Z) :
  stored_credentials w = Some (JsonObject c) ->
  new_Date (expiry_date c) = Some expiry ->
  now w + fiveMinutes < expiry ->
  let w1 := world_after loadOAuthCredentialsQuietly w in
  (result_of loadOAuthCredentialsQuietly w = Ok (Some (oauth_handle w c)) /\
   refresh_attempts w1 = refresh_attempts w /\
   disk_writes w1 = disk_writes w /\
   creds_dir w1 = creds_dir w) /\
  forall later,
    later + fiveMinutes < expiry ->
    let w2 := world_after loadOAuthCredentialsQuietly (set_now later w1) in
    result_of loadOAuthCredentialsQuietly (set_now later w1)
      = result_of loadOAuthCredentialsQuietly w /\
    refresh_attempts w2 = refresh_attempts w /\
    disk_writes w2 = disk_writes w /\
    creds_dir w2 = creds_dir w.
Proof.
  intros Hstored Hdate Hfresh w1.
  assert (Htime : forall t, timeToExpiry c (Some t) = Some (expiry - t)).
  { intros t. unfold timeToExpiry. rewrite Hdate. reflexivity. }
  assert (Hcond : forall r, fiveMinutes < r ->
            (r <? fiveMinutes) && hasRefreshToken c = false).
  { intros r Hr. apply andb_false_iff. left. apply Z.ltb_ge. lia. }
  assert (Hleft : fiveMinutes < expiry - now w) by lia.
  destruct (loadOAuthCredentialsQuietly_as_stored w c (expiry - now w) Hstored
              (Htime _) (Hcond _ Hleft)) as (Hres & Hatt & Hwr & Hdir).
  fold w1 in Hatt, Hwr, Hdir.
  split; [repeat split; assumption|].
  intros later Hfresh' w2.
  pose proof (loadOAuthCredentialsQuietly_frame w) as Hframe. fold w1 in Hframe.
  assert (Hstored' : stored_credentials (set_now later w1) = Some (JsonObject c)).
  { unfold stored_credentials in *. cbn. now rewrite Hdir. }
  assert (Hleft' : fiveMinutes < expiry - later) by lia.
  destruct (loadOAuthCredentialsQuietly_as_stored (set_now later w1) c (expiry - later)
              Hstored' (Htime _) (Hcond _ Hleft')) as (Hres' & Hatt' & Hwr' & Hdir').
  fold w2 in Hatt', Hwr', Hdir'.
  rewrite Hres', Hres.
  repeat split.
  - unfold oauth_handle. cbn. now rewrite (qf_env _ _ Hframe).
  - rewrite Hatt'. exact Hatt.
  - rewrite Hwr'. exact Hwr.
  - rewrite Hdir'. exact Hdir.
Qed.

Lemma loadOAuthCredentialsQuietly_fresh_witness :
  stored_credentials world_fresh = Some (JsonObject fresh_creds) /\
  new_Date (expiry_date fresh_creds) = Some (sample_now + 3600000) /\
  now world_fresh + fiveMinutes < sample_now + 3600000 /\
  result_of loadOAuthCredentialsQuietly world_fresh
    = Ok (Some (oauth_handle world_fresh fresh_creds)) /\
  disk_writes (world_after loadOAuthCredentialsQuietly world_fresh) = 0%nat.
Proof.
  assert (H1 : stored_credentials world_fresh = Some (JsonObject fresh_creds))
    by (vm_compute; reflexivity).
  assert (H2 : new_Date (expiry_date fresh_creds) = Some (sample_now + 3600000))
    by (vm_compute; reflexivity).
  assert (H3 : now world_fresh + fiveMinutes < sample_now + 3600000)
    by (vm_compute; reflexivity).
  destruct (loadOAuthCredentialsQuietly_fresh world_fresh fresh_creds
              (sample_now + 3600000) H1 H2 H3) as [(Hres & _ & Hwr & _) _].
  repeat split; assumption.
Defined.

(** C10, as stated, fails: a stored [expiry_date] of -9e15 ms is already
    past and the record has no refresh token, but the date is outside the
    range of time values: [toISOString()] throws while the expiry status is
    logged and the result is null, not a handle built from the stale
    record. *)
Lemma loadOAuthCredentialsQuietly_ancient_stale_gives_null :
  stored_credentials world_ancient_stale = Some (JsonObject ancient_stale_creds) /\
  expiry_date ancient_stale_creds = NNum (-9000000000000000) /\
  -9000000000000000 < now world_ancient_stale /\
  hasRefreshToken ancient_stale_creds = false /\
  result_of loadOAuthCredentialsQuietly world_ancient_stale = Ok None /\
  result_of loadOAuthCredentialsQuietly world_ancient_stale
    <> Ok (Some (oauth_handle world_ancient_stale ancient_stale_creds)).
Proof.
  repeat split; try (vm_compute; reflexivity).
  vm_compute. discriminate.
Qed.

(** C10, amended: a stored record whose [expiry_date] is a valid time value
    [expiry] (a number of at most 8.64e15 ms in absolute value, or null,
    which stands for 0) less than five minutes away or already past, and
    which has no refresh token, is returned as it is: the result is a handle
    built from the stale record, with no refresh attempt and no write. *)
Theorem loadOAuthCredentialsQuietly_stale_without_refresh_token
    (w : World) (c : Credentials) (expiry : Z) :
  stored_credentials w = Some (JsonObject c) ->
  new_Date (expiry_date c) = Some expiry ->
  expiry < now w + fiveMinutes ->
  hasRefreshToken c = false ->
  let w' := world_after loadOAuthCredentialsQuietly w in
  result_of loadOAuthCredentialsQuietly w = Ok (Some (oauth_handle w c)) /\
  result_of loadOAuthCredentialsQuietly w <> Ok None /\
  refresh_attempts w' = refresh_attempts w /\
  disk_writes w' = disk_writes w /\
  creds_dir w' = creds_dir w.
Proof.
  intros Hstored Hdate Hlt Htoken w'.
  assert (Htime : timeToExpiry c (Some (now w)) = Some (expiry - now w)).
  { unfold timeToExpiry. rewrite Hdate. reflexivity. }
  assert (Hcond : (expiry - now w <? fiveMinutes) && hasRefreshToken c = false)
    by (rewrite Htoken; apply andb_false_r).
  destruct (loadOAuthCredentialsQuietly_as_stored w c (expiry - now w) Hstored Htime Hcond)
    as (Hres & Hatt & Hwr & Hdir).
  repeat split; try assumption.
  rewrite Hres. discriminate.
Qed.

Lemma loadOAuthCredentialsQuietly_stale_without_refresh_token_witness :
  stored_credentials world_stale = Some (JsonObject stale_creds) /\
  new_Date (expiry_date stale_creds) = Some (sample_now + 60000) /\
  sample_now + 60000 < now world_stale + fiveMinutes /\
  hasRefreshToken stale_creds = false /\
  result_of loadOAuthCredentialsQuietly world_stale
    = Ok (Some (oauth_handle world_stale stale_creds)).
Proof.
  assert (H1 : stored_credentials world_stale = Some (JsonObject stale_creds))
    by (vm_compute; reflexivity).
  assert (H2 : new_Date (expiry_date stale_creds) = Some (sample_now + 60000))
    by (vm_compute; reflexivity).
  assert (H3 : sample_now + 60000 < now world_stale + fiveMinutes)
    by (vm_compute; reflexivity).
  assert (H4 : hasRefreshToken stale_creds = false) by (vm_compute; reflexivity).
  destruct (loadOAuthCredentialsQuietly_stale_without_refresh_token
              world_stale stale_creds (sample_now + 60000) H1 H2 H3 H4) as (Hres & _).
  repeat split; assumption.
Defined.

(** *** The mode and the quiet load by mode *)

Lemma getAuthType_authTypeOf (w : World) :
  getAuthType w = (Ok (authTypeOf w), w).
Proof.
  unfold authTypeOf, result_of. rewrite getAuthType_run. reflexivity.
Qed.

Lemma quiet_frame_refl (w : World) : quiet_frame w w.
Proof. constructor; reflexivity. Qed.

Lemma quiet_frame_trans (w1 w2 w3 : World) :
  quiet_frame w1 w2 -> quiet_frame w2 w3 -> quiet_frame w1 w3.
Proof.
  intros [] []. constructor; congruence.
Qed.

Lemma quiet_frame_log (msg : string) (w : World) :
  quiet_frame w (set_trace (EvLog msg :: trace w) w).
Proof. constructor; reflexivity. Qed.

Lemma existsSync_same_inputs (w1 w2 : World) (p : Path) :
  same_inputs w1 w2 -> existsSync p w1 = existsSync p w2.
Proof.
  intros H. unfold existsSync.
  rewrite (si_creds_dir _ _ H), (si_outside _ _ H). reflexivity.
Qed.

Lemma authTypeOf_same_inputs (w1 w2 : World) :
  same_inputs w1 w2 -> authTypeOf w1 = authTypeOf w2.
Proof.
  intros H. unfold authTypeOf, result_of. rewrite !getAuthType_run. cbn.
  rewrite (si_env _ _ H), (si_service_account_path _ _ H).
  rewrite !(existsSync_same_inputs w1 w2) by exact H. reflexivity.
Qed.

Lemma authTypeOf_quiet_frame (w w' : World) :
  quiet_frame w w' -> authTypeOf w' = authTypeOf w.
Proof.
  intros H. unfold authTypeOf, result_of. rewrite !getAuthType_run. cbn.
  rewrite (qf_env _ _ H), (qf_service_account_path _ _ H).
  rewrite !(qf_exists _ _ H). reflexivity.
Qed.

Lemma same_inputs_log (msg : string) (w : World) :
  same_inputs w (set_trace (EvLog msg :: trace w) w).
Proof. constructor; reflexivity. Qed.

Lemma same_inputs_trans (w1 w2 w3 : World) :
  same_inputs w1 w2 -> same_inputs w2 w3 -> same_inputs w1 w3.
Proof. intros [] []. constructor; congruence. Qed.

(** [authenticateWithServiceAccount()] on every world. *)
Lemma authenticateWithServiceAccount_cases (w : World) :
  let w' := world_after authenticateWithServiceAccount w in
  quiet_frame w w' /\
  result_of authenticateWithServiceAccount w =
    Ok (if existsSync (serviceAccountPath w) w
        then Some (HGoogleAuth (serviceAccountPath w) SCOPES) else None) /\
  service_account_attempts w' = S (service_account_attempts w) /\
  creds_dir w' = creds_dir w /\
  refresh_attempts w' = refresh_attempts w /\
  disk_writes w' = disk_writes w.
Proof.
  unfold_observations. unfold authenticateWithServiceAccount, fs_existsSync, log, emit.
  unfold_monad. cbn.
  replace (existsSync (serviceAccountPath w)
             (set_trace (EvLog msg_service_account :: trace w) w))
    with (existsSync (serviceAccountPath w) w) by reflexivity.
  destruct (existsSync (serviceAccountPath w) w); cbn;
    (split; [constructor; reflexivity|]); repeat split; reflexivity.
Qed.

Lemma loadCredentialsQuietly_run (w : World) :
  loadCredentialsQuietly w =
  match authTypeOf w with
  | SERVICE_ACCOUNT => authenticateWithServiceAccount
  | OAUTH => loadOAuthCredentialsQuietly
  end (set_trace (EvLog "Using auth type:" :: trace w) w).
Proof.
  unfold loadCredentialsQuietly. unfold mbind, M_bind.
  rewrite getAuthType_authTypeOf. reflexivity.
Qed.

(** The quiet load never throws and respects the frame, in both modes. *)
Lemma loadCredentialsQuietly_frame (w : World) :
  quiet_frame w (world_after loadCredentialsQuietly w) /\
  exists r, result_of loadCredentialsQuietly w = Ok r.
Proof.
  unfold world_after, result_of. rewrite loadCredentialsQuietly_run.
  set (w0 := set_trace _ w).
  assert (H0 : quiet_frame w w0) by apply quiet_frame_log.
  destruct (authTypeOf w).
  - split.
    + eapply quiet_frame_trans; [exact H0|]. apply loadOAuthCredentialsQuietly_frame.
    + apply loadOAuthCredentialsQuietly_returns.
  - destruct (authenticateWithServiceAccount_cases w0) as (Hf & Hr & _).
    split.
    + eapply quiet_frame_trans; [exact H0|exact Hf].
    + eexists. exact Hr.
Qed.

(** The quiet OAuth load reads neither the trace nor the installed default
    credentials. *)
Lemma loadOAuthCredentialsQuietly_same_inputs (w1 w2 : World) :
  same_inputs w1 w2 ->
  result_of loadOAuthCredentialsQuietly w1 = result_of loadOAuthCredentialsQuietly w2 /\
  same_inputs (world_after loadOAuthCredentialsQuietly w1)
              (world_after loadOAuthCredentialsQuietly w2).
Proof.
  destruct w1 as [e sap dc out flow cok cd t rr ga1 tr1].
  destruct w2 as [e2 sap2 dc2 out2 flow2 cok2 cd2 t2 rr2 ga2 tr2].
  intros [H1 H2 H3 H4 H5 H6 H7 H8 H9]. cbn in *. subst e2 sap2 dc2 out2 flow2 cok2 cd2 t2 rr2.
  destruct cd as [d|];
    [destruct (d !! ".gdrive-server-credentials.json") as [[| |c]|] eqn:Hfile|].
  all: exec; run_with Hfile.
  3: { destruct (new_Date (expiry_date c)) as [ex|] eqn:Hdate; cbn.
       - destruct (ex - t <? fiveMinutes) eqn:Hlt;
           destruct (hasRefreshToken c) eqn:Htoken; cbn;
           [destruct rr as [|[newCreds|] rest]; run_with Hfile|..].
         all: split; [reflexivity|constructor; reflexivity].
       - split; [reflexivity|constructor; reflexivity]. }
  all: split; [reflexivity|constructor; reflexivity].
Qed.

Lemma authenticateWithServiceAccount_same_inputs (w1 w2 : World) :
  same_inputs w1 w2 ->
  result_of authenticateWithServiceAccount w1 = result_of authenticateWithServiceAccount w2 /\
  same_inputs (world_after authenticateWithServiceAccount w1)
              (world_after authenticateWithServiceAccount w2).
Proof.
  destruct w1 as [e sap dc out flow cok cd t rr ga1 tr1].
  destruct w2 as [e2 sap2 dc2 out2 flow2 cok2 cd2 t2 rr2 ga2 tr2].
  intros [H1 H2 H3 H4 H5 H6 H7 H8 H9]. cbn in *. subst e2 sap2 dc2 out2 flow2 cok2 cd2 t2 rr2.
  unfold_observations. unfold authenticateWithServiceAccount, fs_existsSync, log, emit.
  unfold_monad. unfold existsSync. cbn.
  destruct sap as [n|q]; [destruct cd as [d|]|]; cbn;
    try destruct (bool_decide _); cbn;
    (split; [reflexivity|constructor; reflexivity]).
Qed.

Lemma loadCredentialsQuietly_same_inputs (w1 w2 : World) :
  same_inputs w1 w2 ->
  result_of loadCredentialsQuietly w1 = result_of loadCredentialsQuietly w2 /\
  same_inputs (world_after loadCredentialsQuietly w1)
              (world_after loadCredentialsQuietly w2).
Proof.
  intros H. unfold result_of, world_after. rewrite !loadCredentialsQuietly_run.
  rewrite (authTypeOf_same_inputs w1 w2 H).
  assert (H' : same_inputs (set_trace (EvLog "Using auth type:" :: trace w1) w1)
                           (set_trace (EvLog "Using auth type:" :: trace w2) w2)).
  { destruct H. constructor; assumption. }
  destruct (authTypeOf w2).
  - now apply loadOAuthCredentialsQuietly_same_inputs.
  - now apply authenticateWithServiceAccount_same_inputs.
Qed.

(** Every path through [authenticateAndSaveCredentials]: one browser flow
    is launched and the function never throws; a flow that fails gives null
    and touches neither the token endpoint nor the disk; a flow that
    succeeds is followed by exactly one refresh attempt, and when that
    refresh fails the client of the flow is returned and the disk is left
    alone. *)
Lemma authenticateAndSaveCredentials_cases (w : World) :
  let w' := world_after authenticateAndSaveCredentials w in
  (interactive_flows w' = S (interactive_flows w) /\
   connects w' = connects w /\ process_exits w' = process_exits w /\
   connect_ok w' = connect_ok w /\ google_auth w' = google_auth w /\
   exists r, result_of authenticateAndSaveCredentials w = Ok r) /\
  (flow_fails (auth_flow w) default_timeoutMs = true ->
   result_of authenticateAndSaveCredentials w = Ok None /\
   creds_dir w' = creds_dir w /\ disk_writes w' = disk_writes w /\
   refresh_attempts w' = refresh_attempts w) /\
  (forall d client,
     auth_flow w = FlowResolves d client -> d < default_timeoutMs ->
     refresh_attempts w' = S (refresh_attempts w) /\
     (refresh_fails w = true ->
      result_of authenticateAndSaveCredentials w = Ok (Some client) /\
      creds_dir w' = creds_dir w /\ disk_writes w' = disk_writes w)).
Proof.
  destruct w as [e sap dc out flow cok cd t rr ga tr].
  assert (Hge : forall d, (d <? default_timeoutMs) = false -> d < default_timeoutMs -> False).
  { intros d H1 H2. apply Z.ltb_ge in H1. lia. }
  destruct flow as [d client|d|];
    [destruct (d <? default_timeoutMs) eqn:Hlt;
     destruct (hasRefreshToken (credentials client)) eqn:Htoken
    |destruct (d <? default_timeoutMs) eqn:Hlt|];
    destruct rr as [|[newCreds|] rest]; destruct cd as [dir|]; destruct dc;
    exec; rewrite ?Hlt; cbn; rewrite ?Htoken; cbn.
  all: split; [repeat split; try reflexivity; eexists; reflexivity|].
  all: split; [intros Hfail; try discriminate Hfail; repeat split; reflexivity|].
  all: intros d' client' Hflow Hd; try discriminate Hflow.
  all: injection Hflow as <- <-.
  all: try (exfalso; eapply Hge; eassumption).
  all: split; [reflexivity|].
  all: intros Hfail; try discriminate Hfail; repeat split; reflexivity.
Qed.



(** *** The top-level entry *)

Lemma quiet_run (w : World) :
  exists r w1, loadCredentialsQuietly w = (Ok r, w1) /\ quiet_frame w w1.
Proof.
  destruct (loadCredentialsQuietly_frame w) as [Hframe [r Hr]].
  unfold result_of, world_after in *.
  destruct (loadCredentialsQuietly w) as [r' w1]. cbn in *. subst r'.
  exists r, w1. split; [reflexivity|exact Hframe].
Qed.

Lemma service_account_retry (w : World) :
  let w0 := set_trace (EvLog "Retrying service account authentication" :: trace w) w in
  let w' := world_after authenticateWithServiceAccount w0 in
  result_of authenticateWithServiceAccount w0 = result_of authenticateWithServiceAccount w /\
  service_account_attempts w' = S (service_account_attempts w) /\
  interactive_flows w' = interactive_flows w.
Proof.
  intros w0 w'.
  destruct (authenticateWithServiceAccount_cases w0) as (Hframe & _ & Hatt & _).
  destruct (authenticateWithServiceAccount_same_inputs w w0) as [Hres _].
  { apply same_inputs_log. }
  split; [symmetry; exact Hres|]. split.
  - subst w'. rewrite Hatt. reflexivity.
  - subst w'. rewrite (qf_interactive _ _ Hframe). reflexivity.
Qed.

(** C5: [getValidCredentials(forceAuth)].  Unless forced, the quiet load
    runs first and its non-null result is returned.  When the quiet load
    gives null (or was skipped): in SERVICE_ACCOUNT mode the service-account
    authentication is tried exactly once more and no interactive flow is
    launched; in OAUTH mode the function continues as
    [authenticateAndSaveCredentials()], which launches the interactive
    flow. *)
Theorem getValidCredentials_spec (w : World) :
  let w1 := world_after loadCredentialsQuietly w in
  let w2 := world_after (getValidCredentials false) w in
  let w3 := world_after (getValidCredentials true) w in
  let interactive (from : World) (r : Result (option Handle)) (to : World) :=
    r = match result_of authenticateAndSaveCredentials from with
        | Ok auth => Ok (HOAuth2 <$> auth)
        | Throw e => Throw e
        end /\
    to = world_after authenticateAndSaveCredentials from /\
    interactive_flows to = S (interactive_flows from) in
  (forall h,
     result_of loadCredentialsQuietly w = Ok (Some h) ->
     result_of (getValidCredentials false) w = Ok (Some h) /\ w2 = w1) /\
  (result_of loadCredentialsQuietly w = Ok None ->
   interactive_flows w1 = interactive_flows w /\
   (authTypeOf w = SERVICE_ACCOUNT ->
    result_of (getValidCredentials false) w
      = result_of authenticateWithServiceAccount w1 /\
    service_account_attempts w2 = S (service_account_attempts w1) /\
    interactive_flows w2 = interactive_flows w) /\
   (authTypeOf w = OAUTH ->
    interactive w1 (result_of (getValidCredentials false) w) w2)) /\
  (authTypeOf w = SERVICE_ACCOUNT ->
   result_of (getValidCredentials true) w
     = result_of authenticateWithServiceAccount w /\
   service_account_attempts w3 = S (service_account_attempts w) /\
   interactive_flows w3 = interactive_flows w) /\
  (authTypeOf w = OAUTH ->
   interactive w (result_of (getValidCredentials true) w) w3).
Proof.
  cbv zeta. unfold result_of, world_after, getValidCredentials.
  unfold mbind, M_bind, mret, M_ret. cbn [negb].
  destruct (quiet_run w) as (r & wq & Hq & Hframe). rewrite Hq. cbn [fst snd].
  pose proof (authTypeOf_quiet_frame _ _ Hframe) as Hmode.
  split; [|split; [|split]].
  - intros h [= ->]. split; reflexivity.
  - intros [= ->]. rewrite getAuthType_authTypeOf, Hmode.
    split; [exact (qf_interactive _ _ Hframe)|]. split.
    + intros ->. cbn.
      destruct (service_account_retry wq) as (Hres & Hatt & Hint).
      unfold result_of, world_after in Hres, Hatt, Hint.
      unfold log, emit, modify. cbn.
      repeat split; try assumption.
      rewrite Hint. exact (qf_interactive _ _ Hframe).
    + intros ->. cbn.
      destruct (authenticateAndSaveCredentials_cases wq) as ((Hone & _) & _).
      unfold result_of, world_after in Hone.
      destruct (authenticateAndSaveCredentials wq) as [[auth|e] wa]; cbn in *;
        repeat split; assumption.
  - intros Hsa. rewrite getAuthType_authTypeOf, Hsa. cbn.
    destruct (service_account_retry w) as (Hres & Hatt & Hint).
    unfold result_of, world_after in Hres, Hatt, Hint.
    unfold log, emit, modify. cbn.
    repeat split; assumption.
  - intros Hoauth. rewrite getAuthType_authTypeOf, Hoauth. cbn.
    destruct (authenticateAndSaveCredentials_cases w) as ((Hone & _) & _).
    unfold result_of, world_after in Hone.
    destruct (authenticateAndSaveCredentials w) as [[auth|e] wa]; cbn in *;
      repeat split; assumption.
Qed.

Lemma getValidCredentials_spec_witness :
  (* quiet load succeeds: its handle is returned *)
  (result_of loadCredentialsQuietly world_fresh
     = Ok (Some (oauth_handle world_fresh fresh_creds)) /\
   result_of (getValidCredentials false) world_fresh
     = Ok (Some (oauth_handle world_fresh fresh_creds))) /\
  (* SERVICE_ACCOUNT mode, quiet load null: one retry, no interactive flow *)
  (result_of loadCredentialsQuietly world_forced_flow = Ok None /\
   authTypeOf world_forced_flow = SERVICE_ACCOUNT /\
   service_account_attempts (world_after (getValidCredentials false) world_forced_flow)
     = 2%nat /\
   interactive_flows (world_after (getValidCredentials false) world_forced_flow)
     = 0%nat) /\
  (* OAUTH mode, quiet load null: the interactive flow is launched *)
  (result_of loadCredentialsQuietly world_blank = Ok None /\
   authTypeOf world_blank = OAUTH /\
   interactive_flows (world_after (getValidCredentials false) world_blank) = 1%nat) /\
  (* forced *)
  interactive_flows (world_after (getValidCredentials true) world_forced_flow) = 0%nat /\
  interactive_flows (world_after (getValidCredentials true) world_blank) = 1%nat.
Proof.
  assert (Q1 : result_of loadCredentialsQuietly world_fresh
               = Ok (Some (oauth_handle world_fresh fresh_creds)))
    by (vm_compute; reflexivity).
  assert (Q2 : result_of loadCredentialsQuietly world_forced_flow = Ok None)
    by (vm_compute; reflexivity).
  assert (M2 : authTypeOf world_forced_flow = SERVICE_ACCOUNT)
    by (vm_compute; reflexivity).
  assert (Q3 : result_of loadCredentialsQuietly world_blank = Ok None)
    by (vm_compute; reflexivity).
  assert (M3 : authTypeOf world_blank = OAUTH) by (vm_compute; reflexivity).
  destruct (getValidCredentials_spec world_fresh) as (Hquiet & _).
  destruct (getValidCredentials_spec world_forced_flow) as (_ & Hsa & Hforced_sa & _).
  destruct (getValidCredentials_spec world_blank) as (_ & Hoauth & _ & Hforced_oauth).
  destruct (Hquiet _ Q1) as [R1 _].
  destruct (Hsa Q2) as (_ & Hretry & _).
  destruct (Hretry M2) as (_ & A2 & I2).
  destruct (Hoauth Q3) as (I3 & _ & Hflow).
  destruct (Hflow M3) as (_ & _ & F3).
  destruct (Hforced_sa M2) as (_ & _ & I4).
  destruct (Hforced_oauth M3) as (_ & _ & I5).
  split; [split; [exact Q1|exact R1]|].
  split; [split; [exact Q2|split; [exact M2|split]]|].
  - rewrite A2. vm_compute. reflexivity.
  - rewrite I2. vm_compute. reflexivity.
  - split; [split; [exact Q3|split; [exact M3|]]|split].
    + rewrite F3, I3. vm_compute. reflexivity.
    + rewrite I4. vm_compute. reflexivity.
    + rewrite I5. vm_compute. reflexivity.
Defined.

(** *** Start-up after a failed interactive authorization *)

Lemma authenticateWithTimeout_fails (w : World) (keyfilePath : Path) (scopes : list string) :
  flow_fails (auth_flow w) default_timeoutMs = true ->
  result_of (authenticateWithTimeout keyfilePath scopes default_timeoutMs) w = Ok None.
Proof.
  destruct w as [e sap dc out flow cok cd t rr ga tr]. cbn.
  destruct flow as [d client|d|]; cbn; intros Hfail; exec.
  - destruct (d <? default_timeoutMs); [discriminate Hfail|reflexivity].
  - destruct (d <? default_timeoutMs); reflexivity.
  - reflexivity.
Qed.

(** In OAUTH mode, with a quiet load that gives null and a browser flow
    that fails, [getValidCredentials()] returns null without throwing. *)
Lemma getValidCredentials_null (w : World) :
  result_of loadCredentialsQuietly w = Ok None ->
  authTypeOf w = OAUTH ->
  flow_fails (auth_flow w) default_timeoutMs = true ->
  let w' := world_after (getValidCredentials false) w in
  result_of (getValidCredentials false) w = Ok None /\
  connects w' = connects w /\ process_exits w' = process_exits w /\
  connect_ok w' = connect_ok w.
Proof.
  intros Hquiet Hmode Hfail.
  cbv zeta. unfold result_of, world_after, getValidCredentials in *.
  unfold mbind, M_bind, mret, M_ret. cbn [negb].
  destruct (quiet_run w) as (r & wq & Hq & Hframe). rewrite Hq in *. cbn [fst snd] in *.
  injection Hquiet as ->.
  rewrite getAuthType_authTypeOf, (authTypeOf_quiet_frame _ _ Hframe), Hmode. cbn.
  destruct (authenticateAndSaveCredentials_cases wq) as ((_ & Hc & He & Hok & _) & Hnull & _).
  rewrite (qf_auth_flow _ _ Hframe) in Hnull. destruct (Hnull Hfail) as (Hres & _).
  unfold result_of, world_after in *.
  destruct (authenticateAndSaveCredentials wq) as [ra wa]. cbn in *. subst ra. cbn.
  repeat split.
  - rewrite Hc. exact (qf_connects _ _ Hframe).
  - rewrite He. exact (qf_exits _ _ Hframe).
  - rewrite Hok. exact (qf_connect_ok _ _ Hframe).
Qed.

(** C6, as stated, fails: with nothing on disk and a browser flow that
    never settles, the authentication attempt yields null, and yet
    [startServer()] goes on to connect the transport and to set up the
    refresh timer; [process.exit] is not called. *)
Lemma startServer_survives_auth_timeout :
  result_of (authenticateWithTimeout (InCredsDir "gcp-oauth.keys.json") SCOPES
               default_timeoutMs) world_blank = Ok None /\
  result_of ensureAuth world_blank = Ok None /\
  result_of startServer world_blank = Ok tt /\
  process_exits (world_after startServer world_blank) = 0%nat /\
  connects (world_after startServer world_blank) = 1%nat /\
  In (EvSetInterval refreshInterval) (trace (world_after startServer world_blank)).
Proof.
  repeat split; try (vm_compute; reflexivity).
  vm_compute. left. reflexivity.
Qed.

(** C6, amended: when the interactive flow exceeds its timeout (30000 ms by
    default) or errors, the authentication attempt yields null and nothing
    is written; in OAUTH mode with a quiet load that gave null,
    [getValidCredentials()] and [ensureAuth()] return that null without
    throwing, and [startServer()] does not treat it as an error: it installs
    null as the default credentials and connects the transport, and the
    process exits (with code 1) only if connecting fails. *)
Theorem interactive_failure_not_fatal (w : World) (keyfilePath : Path) (scopes : list string) :
  flow_fails (auth_flow w) default_timeoutMs = true ->
  result_of (authenticateWithTimeout keyfilePath scopes default_timeoutMs) w = Ok None /\
  (result_of authenticateAndSaveCredentials w = Ok None /\
   creds_dir (world_after authenticateAndSaveCredentials w) = creds_dir w) /\
  (result_of loadCredentialsQuietly w = Ok None ->
   authTypeOf w = OAUTH ->
   let w' := world_after startServer w in
   result_of (getValidCredentials false) w = Ok None /\
   result_of ensureAuth w = Ok None /\
   result_of startServer w = Ok tt /\
   google_auth w' = None /\
   connects w' = S (connects w) /\
   process_exits w' = if connect_ok w then process_exits w else S (process_exits w)).
Proof.
  intros Hfail.
  split; [now apply authenticateWithTimeout_fails|].
  split.
  { destruct (authenticateAndSaveCredentials_cases w) as (_ & Hnull & _).
    destruct (Hnull Hfail) as (Hres & Hdir & _). split; assumption. }
  intros Hquiet Hmode w'.
  destruct (getValidCredentials_null w Hquiet Hmode Hfail) as (Hres & _).
  split; [exact Hres|].
  split.
  { unfold result_of, ensureAuth in *. unfold mbind, M_bind, mret, M_ret.
    destruct (getValidCredentials false w) as [r wg]. cbn in Hres. subst r.
    reflexivity. }
  (* the run of startServer: two logs, then ensureAuth on an equivalent world *)
  subst w'. unfold result_of, world_after, startServer, ensureAuth, setupTokenRefresh.
  unfold log, emit, google_options, server_connect, process_exit.
  unfold_monad. cbn.
  rewrite getAuthType_authTypeOf. cbn.
  rewrite <- (authTypeOf_same_inputs w _ (same_inputs_log "Starting server" w)), Hmode.
  set (w0 := set_trace _ (set_trace _ w)).
  assert (Hin : same_inputs w w0) by (constructor; reflexivity).
  destruct (loadCredentialsQuietly_same_inputs w w0 Hin) as [Hq0 _].
  destruct (getValidCredentials_null w0) as (Hres0 & Hc & He & Hok).
  { rewrite <- Hq0. exact Hquiet. }
  { rewrite <- (authTypeOf_same_inputs w w0 Hin). exact Hmode. }
  { exact Hfail. }
  unfold result_of, world_after in Hres0, Hc, He, Hok.
  destruct (getValidCredentials false w0) as [r wg]. cbn in Hres0, Hc, He, Hok.
  subst r. cbn. rewrite Hok. cbn.
  unfold connects, process_exits in *. cbn in Hc, He.
  destruct (connect_ok w); cbn; rewrite ?Hc, ?He; repeat split; reflexivity.
Qed.

Lemma interactive_failure_not_fatal_witness :
  flow_fails (auth_flow world_flow_rejects) default_timeoutMs = true /\
  result_of loadCredentialsQuietly world_flow_rejects = Ok None /\
  authTypeOf world_flow_rejects = OAUTH /\
  result_of authenticateAndSaveCredentials world_flow_rejects = Ok None /\
  result_of startServer world_flow_rejects = Ok tt /\
  process_exits (world_after startServer world_flow_rejects) = 0%nat.
Proof.
  assert (H1 : flow_fails (auth_flow world_flow_rejects) default_timeoutMs = true)
    by reflexivity.
  assert (H2 : result_of loadCredentialsQuietly world_flow_rejects = Ok None)
    by (vm_compute; reflexivity).
  assert (H3 : authTypeOf world_flow_rejects = OAUTH) by (vm_compute; reflexivity).
  destruct (interactive_failure_not_fatal world_flow_rejects
              (InCredsDir "gcp-oauth.keys.json") SCOPES H1)
    as (_ & (Hnull & _) & Hstart).
  destruct (Hstart H2 H3) as (_ & _ & Hok & _ & _ & Hexits).
  repeat split; assumption.
Defined.

(** *** The scheduled refresh *)

Lemma refreshTick_run (w : World) :
  let w0 := set_trace (EvLog "Running scheduled token refresh check" :: trace w) w in
  refreshTick w =
  match loadCredentialsQuietly w0 with
  | (Ok (Some h), w1) =>
      (Ok tt, set_trace (EvLog "Completed scheduled token refresh" :: trace w1)
                (set_google_auth (Some h) w1))
  | (Ok None, w1) =>
      (Ok tt, set_trace (EvLog "Skipping token refresh - no valid credentials" :: trace w1) w1)
  | (Throw e, w1) =>
      (Ok tt, set_trace (EvLog "Error in automatic token refresh:" :: trace w1) w1)
  end.
Proof.
  unfold refreshTick, log, emit, google_options. unfold_monad. cbn.
  destruct (loadCredentialsQuietly _) as [[[h|]|err] w1]; reflexivity.
Qed.

(** One tick never throws, launches no interactive flow and does not exit. *)
Lemma refreshTick_counts (w : World) :
  let w' := world_after refreshTick w in
  result_of refreshTick w = Ok tt /\
  interactive_flows w' = interactive_flows w /\
  process_exits w' = process_exits w.
Proof.
  cbv zeta. unfold result_of, world_after. rewrite refreshTick_run. cbv zeta.
  set (w0 := set_trace _ w).
  destruct (quiet_run w0) as (r & w1 & Hq & Hframe). rewrite Hq.
  pose proof (qf_interactive _ _ Hframe) as Hi.
  pose proof (qf_exits _ _ Hframe) as He.
  destruct r as [h|]; cbn; repeat split; assumption.
Qed.

(** Any number of ticks: by induction on the ticks, from any world. *)
Lemma runTicks_counts (n : nat) :
  forall w,
    result_of (runTicks n) w = Ok tt /\
    interactive_flows (world_after (runTicks n) w) = interactive_flows w /\
    process_exits (world_after (runTicks n) w) = process_exits w.
Proof.
  induction n as [|n IH]; intros w.
  - repeat split; reflexivity.
  - unfold result_of, world_after in *. cbn [runTicks].
    unfold mbind, M_bind, modify.
    set (w0 := set_now _ w).
    destruct (refreshTick_counts w0) as (Hr & Hi & He).
    unfold result_of, world_after in Hr, Hi, He.
    destruct (refreshTick w0) as [r w1]. cbn in Hr, Hi, He. subst r.
    destruct (IH w1) as (Hr' & Hi' & He').
    repeat split.
    + exact Hr'.
    + rewrite Hi', Hi. reflexivity.
    + rewrite He', He. reflexivity.
Qed.

(** C8: the refresh timer is registered with an interval of 45 minutes,
    and each tick only runs the quiet load: a non-null result is installed
    as the process-wide default credentials, a null result is logged and
    nothing else happens.  No tick, and no sequence of ticks, launches the
    interactive flow, throws, or terminates the process. *)
Theorem refreshTick_quiet (w : World) :
  let w0 := set_trace (EvLog "Running scheduled token refresh check" :: trace w) w in
  let w1 := world_after loadCredentialsQuietly w0 in
  let w' := world_after refreshTick w in
  trace (world_after setupTokenRefresh w)
    = EvSetInterval (45 * 60 * 1000)
        :: EvLog "Setting up automatic token refresh interval (45 minutes)" :: trace w /\
  result_of refreshTick w = Ok tt /\
  match result_of loadCredentialsQuietly w0 with
  | Ok (Some h) =>
      w' = set_trace (EvLog "Completed scheduled token refresh" :: trace w1)
             (set_google_auth (Some h) w1) /\
      google_auth w' = Some h
  | Ok None =>
      w' = set_trace (EvLog "Skipping token refresh - no valid credentials" :: trace w1) w1 /\
      google_auth w' = google_auth w
  | Throw _ => False
  end /\
  interactive_flows w' = interactive_flows w /\
  process_exits w' = process_exits w /\
  forall n,
    result_of (runTicks n) w = Ok tt /\
    interactive_flows (world_after (runTicks n) w) = interactive_flows w /\
    process_exits (world_after (runTicks n) w) = process_exits w.
Proof.
  cbv zeta.
  split; [reflexivity|].
  destruct (refreshTick_counts w) as (Hr & Hi & He).
  split; [exact Hr|].
  split; [|split; [exact Hi|split; [exact He|intros n; apply runTicks_counts]]].
  unfold result_of, world_after. rewrite refreshTick_run. cbv zeta.
  set (w0 := set_trace _ w).
  destruct (quiet_run w0) as (r & w1 & Hq & Hframe). rewrite Hq. cbn [fst snd].
  destruct r as [h|]; cbn [fst snd]; split; try reflexivity.
  cbn. exact (qf_google_auth _ _ Hframe).
Qed.

(** Two ticks on a record about to expire: the first refreshes, writes the
    file and installs the handle; at the second, 45 minutes later, the new
    record has expired as well, the refresh fails, and the installed handle
    stays. *)
Example runTicks_refresh_then_failure :
  let w' := world_after (runTicks 2) world_expiring_ok in
  refresh_attempts w' = 2%nat /\
  disk_writes w' = 1%nat /\
  google_auth w' = Some (oauth_handle world_expiring_ok fresh_creds) /\
  interactive_flows w' = 0%nat.
Proof. repeat split; vm_compute; reflexivity. Qed.

(** * More of auth.ts and index.ts *)

(** ** The quiet OAuth load on unusable files *)

(** X1: when the credential file is absent, cannot be read or parsed, or
    holds [null], [loadOAuthCredentialsQuietly()] returns null; it asks the
    token endpoint nothing and leaves the credentials directory as it is
    (in particular it does not create it). *)
Theorem loadOAuthCredentialsQuietly_unusable_file (w : World) :
  (forall c, stored_credentials w <> Some (JsonObject c)) ->
  let w' := world_after loadOAuthCredentialsQuietly w in
  result_of loadOAuthCredentialsQuietly w = Ok None /\
  creds_dir w' = creds_dir w /\
  refresh_attempts w' = refresh_attempts w /\
  refresh_responses w' = refresh_responses w /\
  disk_writes w' = disk_writes w.
Proof.
  intros Hnot.
  destruct w as [e sap dc out flow cok cd t rr ga tr].
  unfold stored_credentials in Hnot. cbn in Hnot.
  destruct cd as [d|]; cbn in Hnot;
    [destruct (d !! ".gdrive-server-credentials.json") as [[| |c]|] eqn:Hfile|].
  3: { exfalso. exact (Hnot c eq_refl). }
  all: exec; run_with Hfile; repeat split; reflexivity.
Qed.

Lemma loadOAuthCredentialsQuietly_unusable_file_witness :
  (forall c, stored_credentials world_null_json <> Some (JsonObject c)) /\
  result_of loadOAuthCredentialsQuietly world_null_json = Ok None /\
  (forall c, stored_credentials world_blank <> Some (JsonObject c)) /\
  result_of loadOAuthCredentialsQuietly world_blank = Ok None /\
  creds_dir (world_after loadOAuthCredentialsQuietly world_blank) = None.
Proof.
  assert (H1 : forall c, stored_credentials world_null_json <> Some (JsonObject c))
    by (intros c; vm_compute; discriminate).
  assert (H2 : forall c, stored_credentials world_blank <> Some (JsonObject c))
    by (intros c; vm_compute; discriminate).
  destruct (loadOAuthCredentialsQuietly_unusable_file world_null_json H1) as (R1 & _).
  destruct (loadOAuthCredentialsQuietly_unusable_file world_blank H2) as (R2 & D2 & _).
  repeat split; try assumption.
Defined.

(** X2: a stored record whose [expiry_date] is missing, or is a number
    beyond the range of time values (8.64e15 ms on either side of the
    epoch), is rejected: the result is null and no refresh is attempted,
    even when the record has a refresh token; nothing is written. *)
Theorem loadOAuthCredentialsQuietly_rejects_invalid_expiry (w : World) (c : Credentials) :
  stored_credentials w = Some (JsonObject c) ->
  expiry_date c = NUndefined \/
    (exists n, expiry_date c = NNum n /\ maxTimeValue < Z.abs n) ->
  let w' := world_after loadOAuthCredentialsQuietly w in
  result_of loadOAuthCredentialsQuietly w = Ok None /\
  refresh_attempts w' = refresh_attempts w /\
  disk_writes w' = disk_writes w /\
  creds_dir w' = creds_dir w.
Proof.
  intros Hstored Hbad.
  apply (loadOAuthCredentialsQuietly_invalid_expiry w c Hstored).
  unfold new_Date. destruct Hbad as [->|(n & -> & Hn)]; [reflexivity|].
  destruct (Z.leb_spec (Z.abs n) maxTimeValue); [lia|reflexivity].
Qed.

Lemma loadOAuthCredentialsQuietly_rejects_invalid_expiry_witness :
  stored_credentials world_no_expiry = Some (JsonObject no_expiry_creds) /\
  expiry_date no_expiry_creds = NUndefined /\
  hasRefreshToken no_expiry_creds = true /\
  result_of loadOAuthCredentialsQuietly world_no_expiry = Ok None /\
  refresh_attempts (world_after loadOAuthCredentialsQuietly world_no_expiry) = 0%nat.
Proof.
  assert (H1 : stored_credentials world_no_expiry = Some (JsonObject no_expiry_creds))
    by (vm_compute; reflexivity).
  assert (H2 : expiry_date no_expiry_creds = NUndefined) by reflexivity.
  destruct (loadOAuthCredentialsQuietly_rejects_invalid_expiry
              world_no_expiry no_expiry_creds H1 (or_introl H2)) as (R & A & _).
  repeat split; assumption.
Defined.

(** X3: the test for expiry is strict.  A stored record with exactly five
    minutes left is returned as it is, without refresh or write, even when
    it has a refresh token. *)
Theorem loadOAuthCredentialsQuietly_five_minutes_left (w : World) (c : Credentials) :
  stored_credentials w = Some (JsonObject c) ->
  timeToExpiry c (Some (now w)) = Some fiveMinutes ->
  let w' := world_after loadOAuthCredentialsQuietly w in
  result_of loadOAuthCredentialsQuietly w = Ok (Some (oauth_handle w c)) /\
  refresh_attempts w' = refresh_attempts w /\
  disk_writes w' = disk_writes w /\
  creds_dir w' = creds_dir w.
Proof.
  intros Hstored Htime.
  apply (loadOAuthCredentialsQuietly_as_stored w c fiveMinutes Hstored Htime).
  rewrite Z.ltb_irrefl. reflexivity.
Qed.

Lemma loadOAuthCredentialsQuietly_five_minutes_left_witness :
  stored_credentials world_boundary = Some (JsonObject boundary_creds) /\
  timeToExpiry boundary_creds (Some (now world_boundary)) = Some fiveMinutes /\
  hasRefreshToken boundary_creds = true /\
  result_of loadOAuthCredentialsQuietly world_boundary
    = Ok (Some (oauth_handle world_boundary boundary_creds)) /\
  refresh_attempts (world_after loadOAuthCredentialsQuietly world_boundary) = 0%nat.
Proof.
  assert (H1 : stored_credentials world_boundary = Some (JsonObject boundary_creds))
    by (vm_compute; reflexivity).
  assert (H2 : timeToExpiry boundary_creds (Some (now world_boundary)) = Some fiveMinutes)
    by (vm_compute; reflexivity).
  destruct (loadOAuthCredentialsQuietly_five_minutes_left
              world_boundary boundary_creds H1 H2) as (R & A & _).
  repeat split; assumption.
Defined.

(** ** What the quiet load costs and what it leaves alone *)

(** Every path through the quiet OAuth load: the other files of the
    directory are untouched, at most one refresh is attempted, and a write
    only follows a refresh. *)
Lemma loadOAuthCredentialsQuietly_budget (w : World) :
  let w' := world_after loadOAuthCredentialsQuietly w in
  other_files w' = other_files w /\
  ((refresh_attempts w' = refresh_attempts w /\ disk_writes w' = disk_writes w) \/
   (refresh_attempts w' = S (refresh_attempts w) /\
    (disk_writes w' = disk_writes w \/ disk_writes w' = S (disk_writes w)))).
Proof.
  destruct w as [e sap dc out flow cok cd t rr ga tr].
  unfold other_files.
  destruct cd as [d|];
    [destruct (d !! ".gdrive-server-credentials.json") as [[| |c]|] eqn:Hfile|].
  all: exec; run_with Hfile.
  3: { destruct (new_Date (expiry_date c)) as [ex|] eqn:Hdate; cbn.
       - destruct (ex - t <? fiveMinutes) eqn:Hlt;
           destruct (hasRefreshToken c) eqn:Htoken; cbn;
           [destruct rr as [|[newCreds|] rest]; run_with Hfile|..].
         all: rewrite ?delete_insert_eq.
         all: split; [reflexivity|].
         all: try (left; split; reflexivity).
         all: right; split; [reflexivity|]; (left; reflexivity) || (right; reflexivity).
       - split; [reflexivity|]. left. split; reflexivity. }
  all: split; [reflexivity|]; left; split; reflexivity.
Qed.

Lemma loadCredentialsQuietly_budget (w : World) :
  let w' := world_after loadCredentialsQuietly w in
  other_files w' = other_files w /\
  ((refresh_attempts w' = refresh_attempts w /\ disk_writes w' = disk_writes w) \/
   (refresh_attempts w' = S (refresh_attempts w) /\
    (disk_writes w' = disk_writes w \/ disk_writes w' = S (disk_writes w)))).
Proof.
  cbv zeta. unfold world_after. rewrite loadCredentialsQuietly_run.
  set (w0 := set_trace _ w).
  destruct (authTypeOf w).
  - exact (loadOAuthCredentialsQuietly_budget w0).
  - destruct (authenticateWithServiceAccount_cases w0) as (_ & _ & _ & Hdir & Hr & Hw).
    unfold world_after in Hdir, Hr, Hw. split.
    + unfold other_files. rewrite Hdir. reflexivity.
    + left. split; [exact Hr|exact Hw].
Qed.

(** X4: [loadCredentialsQuietly()] is quiet in both modes.  It never
    throws; it launches no interactive flow and does not terminate the
    process; it does not touch the installed default credentials; no file
    appears or disappears, so that the authentication mode is the same
    after as before; and every file of the credentials directory other than
    the OAuth credential file is left as it was. *)
Theorem loadCredentialsQuietly_is_quiet (w : World) :
  let w' := world_after loadCredentialsQuietly w in
  (exists r, result_of loadCredentialsQuietly w = Ok r) /\
  interactive_flows w' = interactive_flows w /\
  process_exits w' = process_exits w /\
  google_auth w' = google_auth w /\
  (forall p, existsSync p w' = existsSync p w) /\
  authTypeOf w' = authTypeOf w /\
  other_files w' = other_files w.
Proof.
  intros w'.
  destruct (loadCredentialsQuietly_frame w) as [Hframe Hret]. fold w' in Hframe.
  destruct (loadCredentialsQuietly_budget w) as [Hothers _]. fold w' in Hothers.
  split; [exact Hret|].
  split; [exact (qf_interactive _ _ Hframe)|].
  split; [exact (qf_exits _ _ Hframe)|].
  split; [exact (qf_google_auth _ _ Hframe)|].
  split; [exact (qf_exists _ _ Hframe)|].
  split; [exact (authTypeOf_quiet_frame _ _ Hframe)|exact Hothers].
Qed.

(** One tick attempts at most one refresh, and writes only after one. *)
Lemma refreshTick_budget (w : World) :
  let w' := world_after refreshTick w in
  (refresh_attempts w <= refresh_attempts w' <= S (refresh_attempts w))%nat /\
  (disk_writes w <= disk_writes w')%nat /\
  (disk_writes w' - disk_writes w <= refresh_attempts w' - refresh_attempts w)%nat.
Proof.
  cbv zeta. unfold world_after. rewrite refreshTick_run. cbv zeta.
  set (w0 := set_trace _ w).
  destruct (loadCredentialsQuietly_budget w0) as [_ Hb].
  destruct (quiet_run w0) as (r & w1 & Hq & _).
  unfold world_after in Hb. rewrite Hq in *. cbn [snd] in Hb.
  assert (Hr0 : refresh_attempts w0 = refresh_attempts w) by reflexivity.
  assert (Hw0 : disk_writes w0 = disk_writes w) by reflexivity.
  rewrite Hr0, Hw0 in Hb.
  destruct r as [h|]; cbn [snd];
    unfold refresh_attempts, disk_writes in *; cbn; lia.
Qed.

(** X5: over any number of ticks of the scheduled refresh, each tick asks
    the token endpoint at most once and the credential file is written only
    after a refresh: after [n] ticks at most [n] refreshes were attempted,
    and there were no more writes than refresh attempts. *)
Theorem runTicks_budget (n : nat) (w : World) :
  let w' := world_after (runTicks n) w in
  (refresh_attempts w' - refresh_attempts w <= n)%nat /\
  (disk_writes w' - disk_writes w <= refresh_attempts w' - refresh_attempts w)%nat /\
  (refresh_attempts w <= refresh_attempts w')%nat /\
  (disk_writes w <= disk_writes w')%nat.
Proof.
  revert w. induction n as [|n IH]; intros w.
  - cbn. repeat split; lia.
  - cbv zeta. unfold world_after. cbn [runTicks].
    unfold mbind, M_bind, modify.
    set (w0 := set_now _ w).
    pose proof (refreshTick_budget w0) as Htick.
    pose proof (refreshTick_counts w0) as (Hok & _).
    unfold result_of, world_after in Htick, Hok.
    destruct (refreshTick w0) as [r w1]. cbn in Htick, Hok. subst r.
    specialize (IH w1). cbv zeta in IH. unfold world_after in IH.
    unfold refresh_attempts, disk_writes in *. cbn in *. lia.
Qed.

(** ** The events each function may add *)

Lemma extends_by_refl (P : Event -> bool) (w : World) : extends_by P w w.
Proof. exists []. split; reflexivity. Qed.

Lemma extends_by_trans (P : Event -> bool) (w1 w2 w3 : World) :
  extends_by P w1 w2 -> extends_by P w2 w3 -> extends_by P w1 w3.
Proof.
  intros (e1 & H1 & F1) (e2 & H2 & F2). exists (e2 ++ e1)%list. split.
  - rewrite H2, H1. apply app_assoc.
  - rewrite forallb_app, F1, F2. reflexivity.
Qed.

Lemma extends_by_log (P : Event -> bool) (msg : string) (w : World) :
  P (EvLog msg) = true -> extends_by P w (set_trace (EvLog msg :: trace w) w).
Proof. intros H. exists [EvLog msg]. cbn. rewrite H. split; reflexivity. Qed.

Lemma count_events_app (q : Event -> bool) (l1 l2 : list Event) :
  count_events q (l1 ++ l2)%list = (count_events q l1 + count_events q l2)%nat.
Proof.
  induction l1 as [|e l1 IH]; cbn; [reflexivity|]. rewrite IH. lia.
Qed.

(** Added events of kind [P] do not move a counter of events outside [P]. *)
Lemma extends_by_count (P q : Event -> bool) (w w' : World) :
  extends_by P w w' ->
  (forall e, P e = true -> q e = false) ->
  count_events q (trace w') = count_events q (trace w).
Proof.
  intros (evs & -> & Hall) Hq. rewrite count_events_app.
  assert (H0 : count_events q evs = 0%nat).
  { induction evs as [|e evs IH]; cbn in *; [reflexivity|].
    apply andb_true_iff in Hall as [He Hevs].
    rewrite (Hq e He), (IH Hevs). reflexivity. }
  rewrite H0. reflexivity.
Qed.

(** ** The footprint of the authentication functions *)

Arguments file_at : simpl never.

Section Rules.
Context (R : World -> World -> Prop).
Hypothesis R_refl : forall w, R w w.
Hypothesis R_trans : forall w1 w2 w3, R w1 w2 -> R w2 w3 -> R w1 w3.

Lemma keeps_ret {A} (a : A) : keeps R (mret a).
Proof. intros w. apply R_refl. Qed.

Lemma keeps_throw {A} (e : Error) : keeps R (@throw A e).
Proof. intros w. apply R_refl. Qed.

Lemma keeps_gets {A} (f : World -> A) : keeps R (gets f).
Proof. intros w. apply R_refl. Qed.

Lemma keeps_bind {A B} (m : M A) (f : A -> M B) :
  keeps R m -> (forall a, keeps R (f a)) -> keeps R (m ≫= f).
Proof.
  intros Hm Hf w. specialize (Hm w).
  unfold world_after, mbind, M_bind in *.
  destruct (m w) as [[a|e] w1]; cbn in *; [|exact Hm].
  eapply R_trans; [exact Hm|]. apply Hf.
Qed.

Lemma keeps_try_catch {A} (body : M A) (handler : Error -> M A) :
  keeps R body -> (forall e, keeps R (handler e)) -> keeps R (try_catch body handler).
Proof.
  intros Hb Hh w. specialize (Hb w).
  unfold world_after, try_catch in *.
  destruct (body w) as [[a|e] w1]; cbn in *; [exact Hb|].
  eapply R_trans; [exact Hb|]. apply Hh.
Qed.
End Rules.

Lemma total_ret {A} (a : A) : total (mret a).
Proof. intros w. exists a. reflexivity. Qed.

Lemma total_gets {A} (f : World -> A) : total (gets f).
Proof. intros w. eexists. reflexivity. Qed.

Lemma total_modify (f : World -> World) : total (modify f).
Proof. intros w. eexists. reflexivity. Qed.

Lemma total_bind {A B} (m : M A) (f : A -> M B) :
  total m -> (forall a, total (f a)) -> total (m ≫= f).
Proof.
  intros Hm Hf w. destruct (Hm w) as [a Ha].
  unfold result_of, mbind, M_bind in *.
  destruct (m w) as [r w1]. cbn in Ha. subst r. apply Hf.
Qed.

(** A [try] whose handler never throws never throws. *)
Lemma total_try_catch {A} (body : M A) (handler : Error -> M A) :
  (forall e, total (handler e)) -> total (try_catch body handler).
Proof.
  intros Hh w. unfold result_of, try_catch.
  destruct (body w) as [[a|e] w1]; cbn; [eexists; reflexivity|]. apply Hh.
Qed.

Lemma auth_footprint_refl (w : World) : auth_footprint w w.
Proof. constructor; try reflexivity. apply extends_by_refl. Qed.

Lemma auth_footprint_trans (w1 w2 w3 : World) :
  auth_footprint w1 w2 -> auth_footprint w2 w3 -> auth_footprint w1 w3.
Proof.
  intros H12 H23. constructor.
  - eapply extends_by_trans; [apply H12|apply H23].
  - rewrite (af_env _ _ H23). apply H12.
  - rewrite (af_service_account_path _ _ H23). apply H12.
  - rewrite (af_dir_creatable _ _ H23). apply H12.
  - rewrite (af_outside _ _ H23). apply H12.
  - rewrite (af_auth_flow _ _ H23). apply H12.
  - rewrite (af_connect_ok _ _ H23). apply H12.
  - rewrite (af_google_auth _ _ H23). apply H12.
  - intros n Hn. rewrite (af_files _ _ H23 n Hn). apply H12. exact Hn.
Qed.

Lemma keeps_log (msg : string) : keeps auth_footprint (log msg).
Proof.
  intros w. constructor; try reflexivity.
  apply extends_by_log. reflexivity.
Qed.

Lemma keeps_getenv (name : string) : keeps auth_footprint (getenv name).
Proof. intros w. apply auth_footprint_refl. Qed.

Lemma keeps_fs_existsSync (p : Path) : keeps auth_footprint (fs_existsSync p).
Proof. intros w. apply auth_footprint_refl. Qed.

Lemma keeps_mkdir : keeps auth_footprint fs_mkdirSync_CREDS_DIR.
Proof.
  intros w. unfold world_after, fs_mkdirSync_CREDS_DIR.
  destruct (creds_dir w) as [d|] eqn:Hdir; [apply auth_footprint_refl|].
  destruct (dir_creatable w); [|apply auth_footprint_refl].
  constructor; try reflexivity.
  - exists [EvMkdir]. split; reflexivity.
  - intros n _. unfold file_at. cbn. rewrite Hdir. cbn. apply lookup_empty.
Qed.

Lemma keeps_read_json (p : Path) : keeps auth_footprint (read_json p).
Proof.
  intros w. unfold world_after, read_json.
  destruct p as [name|q]; [|apply auth_footprint_refl].
  destruct (creds_dir w ≫= _) as [[| |c]|]; apply auth_footprint_refl.
Qed.

Lemma keeps_write_credentials (c : Credentials) :
  keeps auth_footprint (fs_writeFileSync oauthCredentialsPath c).
Proof.
  intros w. unfold world_after, fs_writeFileSync, oauthCredentialsPath.
  destruct (creds_dir w) as [d|] eqn:Hdir; [|apply auth_footprint_refl].
  constructor; try reflexivity.
  - eexists [EvWrite _ _]. split; reflexivity.
  - intros n Hn. unfold file_at. cbn. rewrite Hdir. cbn.
    apply lookup_insert_ne. congruence.
Qed.

Lemma keeps_refreshAccessToken (client : OAuth2Client) :
  keeps auth_footprint (refreshAccessToken client).
Proof.
  intros w. unfold world_after, refreshAccessToken.
  destruct (hasRefreshToken (credentials client));
    [destruct (refresh_responses w) as [|[c|] rest]|]; cbn;
    (constructor; try reflexivity; exists [EvRefresh]; split; reflexivity).
Qed.

Lemma keeps_race_authenticate (kf : Path) (sc : list string) (t : Z) :
  keeps auth_footprint (race_authenticate kf sc t).
Proof.
  intros w. unfold world_after, race_authenticate.
  destruct (auth_flow w) as [d client|d|] eqn:Hflow; try destruct (d <? t); cbn;
    (constructor; try reflexivity; try (exists [EvInteractive]; split; reflexivity);
     cbn; congruence).
Qed.

Lemma keeps_toISOString (d : JsNum) : keeps auth_footprint (toISOString d).
Proof. intros w. destruct d; apply auth_footprint_refl. Qed.

Lemma keeps_Date_now : keeps auth_footprint Date_now.
Proof. intros w. apply auth_footprint_refl. Qed.

(** One step along the structure of the code. *)
Ltac footprint_step :=
  first
    [ apply keeps_log | apply keeps_getenv | apply keeps_fs_existsSync
    | apply keeps_mkdir | apply keeps_read_json | apply keeps_write_credentials
    | apply keeps_refreshAccessToken | apply keeps_race_authenticate
    | apply keeps_toISOString | apply keeps_Date_now
    | apply (keeps_ret _ auth_footprint_refl)
    | apply (keeps_throw _ auth_footprint_refl)
    | apply (keeps_gets _ auth_footprint_refl)
    | apply (keeps_bind _ auth_footprint_trans)
    | apply (keeps_try_catch _ auth_footprint_trans)
    | match goal with
      | |- keeps _ (match ?x with _ => _ end) => destruct x
      | |- forall _, _ => intros ?
      end ].

Lemma keeps_ensureCredsDirectory : keeps auth_footprint ensureCredsDirectory.
Proof. unfold ensureCredsDirectory. repeat footprint_step. Qed.

Lemma keeps_authenticateWithTimeout (kf : Path) (sc : list string) (t : Z) :
  keeps auth_footprint (authenticateWithTimeout kf sc t).
Proof. unfold authenticateWithTimeout. repeat footprint_step. Qed.

Lemma keeps_authenticateAndSaveCredentials :
  keeps auth_footprint authenticateAndSaveCredentials.
Proof.
  unfold authenticateAndSaveCredentials.
  repeat (footprint_step || apply keeps_authenticateWithTimeout
          || apply keeps_ensureCredsDirectory).
Qed.

Lemma keeps_authenticateWithServiceAccount :
  keeps auth_footprint authenticateWithServiceAccount.
Proof. unfold authenticateWithServiceAccount. repeat footprint_step. Qed.

Lemma keeps_loadOAuthCredentialsQuietly : keeps auth_footprint loadOAuthCredentialsQuietly.
Proof.
  unfold loadOAuthCredentialsQuietly.
  repeat (footprint_step || apply keeps_ensureCredsDirectory).
Qed.

Lemma keeps_getAuthType : keeps auth_footprint getAuthType.
Proof. intros w. unfold world_after. rewrite getAuthType_run. apply auth_footprint_refl. Qed.

Lemma keeps_loadCredentialsQuietly : keeps auth_footprint loadCredentialsQuietly.
Proof.
  unfold loadCredentialsQuietly.
  repeat (footprint_step || apply keeps_getAuthType
          || apply keeps_authenticateWithServiceAccount
          || apply keeps_loadOAuthCredentialsQuietly).
Qed.

Lemma keeps_getValidCredentials (forceAuth : bool) :
  keeps auth_footprint (getValidCredentials forceAuth).
Proof.
  unfold getValidCredentials.
  repeat (footprint_step || apply keeps_getAuthType
          || apply keeps_authenticateWithServiceAccount
          || apply keeps_loadCredentialsQuietly
          || apply keeps_authenticateAndSaveCredentials).
Qed.

Lemma total_log (msg : string) : total (log msg).
Proof. intros w. eexists. reflexivity. Qed.

Ltac total_step :=
  first
    [ apply total_log | apply total_ret | apply total_gets | apply total_modify
    | apply total_try_catch | apply total_bind
    | match goal with
      | |- total (match ?x with _ => _ end) => destruct x
      | |- forall _, _ => intros ?
      end ].

Lemma total_getAuthType : total getAuthType.
Proof. intros w. unfold result_of. rewrite getAuthType_run. eexists. reflexivity. Qed.

Lemma total_authenticateWithTimeout (kf : Path) (sc : list string) (t : Z) :
  total (authenticateWithTimeout kf sc t).
Proof. unfold authenticateWithTimeout. repeat total_step. Qed.

Lemma total_authenticateAndSaveCredentials : total authenticateAndSaveCredentials.
Proof.
  unfold authenticateAndSaveCredentials.
  repeat (total_step || apply total_authenticateWithTimeout).
Qed.

Lemma total_authenticateWithServiceAccount : total authenticateWithServiceAccount.
Proof.
  unfold authenticateWithServiceAccount, getenv, fs_existsSync. repeat total_step.
Qed.

Lemma total_loadOAuthCredentialsQuietly : total loadOAuthCredentialsQuietly.
Proof.
  unfold loadOAuthCredentialsQuietly, getenv, fs_existsSync. repeat total_step.
Qed.

Lemma total_loadCredentialsQuietly : total loadCredentialsQuietly.
Proof.
  unfold loadCredentialsQuietly.
  repeat (total_step || apply total_getAuthType
          || apply total_authenticateWithServiceAccount
          || apply total_loadOAuthCredentialsQuietly).
Qed.

Lemma total_getValidCredentials (forceAuth : bool) : total (getValidCredentials forceAuth).
Proof.
  unfold getValidCredentials.
  repeat (total_step || apply total_getAuthType
          || apply total_authenticateWithServiceAccount
          || apply total_loadCredentialsQuietly
          || apply total_authenticateAndSaveCredentials).
Qed.

(** Counters that the authentication events do not move. *)
Lemma auth_footprint_counters (w w' : World) :
  auth_footprint w w' ->
  connects w' = connects w /\ process_exits w' = process_exits w /\
  timers w' = timers w.
Proof.
  intros H. unfold connects, process_exits, timers.
  repeat split; apply (extends_by_count auth_event _ _ _ (af_trace _ _ H));
    intros [] He; cbn in *; congruence.
Qed.



(** X7: [startServer()] on every world.  It never throws; it connects the
    transport exactly once; the process is left (with code 1) exactly when
    connecting fails, whatever the outcome of the authentication; and the
    refresh timer is registered exactly when connecting succeeds and the
    mode read at the start is OAUTH. *)
Theorem startServer_outcome (w : World) :
  let w' := world_after startServer w in
  result_of startServer w = Ok tt /\
  connects w' = S (connects w) /\
  process_exits w' = (if connect_ok w then process_exits w else S (process_exits w)) /\
  timers w' = (if connect_ok w
               then match authTypeOf w with
                    | OAUTH => S (timers w)
                    | SERVICE_ACCOUNT => timers w
                    end
               else timers w).
Proof.
  cbv zeta. unfold result_of, world_after, startServer, ensureAuth, setupTokenRefresh.
  unfold log, emit, google_options, server_connect, process_exit.
  unfold_monad. cbn.
  rewrite getAuthType_authTypeOf. cbn.
  rewrite <- (authTypeOf_same_inputs w _ (same_inputs_log "Starting server" w)).
  set (w0 := set_trace _ (set_trace _ w)).
  destruct (total_getValidCredentials false w0) as [r Hr].
  pose proof (keeps_getValidCredentials false w0) as Hfoot.
  destruct (auth_footprint_counters _ _ Hfoot) as (Hc & He & Ht).
  pose proof (af_connect_ok _ _ Hfoot) as Hok.
  unfold result_of, world_after in Hr, Hfoot, Hc, He, Ht, Hok.
  destruct (getValidCredentials false w0) as [r' wg]. cbn in Hr, Hc, He, Ht, Hok.
  subst r'. cbn. rewrite Hok. cbn.
  unfold connects, process_exits, timers in *. cbn in Hc, He, Ht.
  destruct (connect_ok w); cbn; [destruct (authTypeOf w); cbn|];
    rewrite ?Hc, ?He, ?Ht; repeat split; reflexivity.
Qed.

(** X8: [ensureAuth()] installs whatever [getValidCredentials()] returned
    as the default credentials, null included, so that a failed
    authentication replaces a handle installed earlier; [ensureAuthQuietly()]
    installs the result of the quiet load only when it is not null, and
    launches no interactive flow.  Neither throws. *)
Theorem ensureAuth_installs (w : World) :
  (exists r,
     result_of (getValidCredentials false) w = Ok r /\
     result_of ensureAuth w = Ok r /\
     google_auth (world_after ensureAuth w) = r) /\
  (exists q,
     result_of loadCredentialsQuietly w = Ok q /\
     result_of ensureAuthQuietly w = Ok q /\
     google_auth (world_after ensureAuthQuietly w)
       = match q with Some h => Some h | None => google_auth w end /\
     interactive_flows (world_after ensureAuthQuietly w) = interactive_flows w).
Proof.
  split.
  - destruct (total_getValidCredentials false w) as [r Hr]. exists r.
    unfold result_of, world_after, ensureAuth, google_options in *. unfold_monad.
    destruct (getValidCredentials false w) as [r' wg]. cbn in *. subst r'.
    repeat split; reflexivity.
  - destruct (quiet_run w) as (q & wq & Hq & Hframe). exists q.
    unfold result_of, world_after, ensureAuthQuietly, google_options. unfold_monad.
    rewrite Hq. cbn.
    destruct q as [h|]; cbn; repeat split;
      try reflexivity; try exact (qf_google_auth _ _ Hframe);
      exact (qf_interactive _ _ Hframe).
Qed.

(** X9: in SERVICE_ACCOUNT mode [getValidCredentials(forceAuth)] yields a
    handle exactly when the key file exists (its content is not read), and
    null otherwise, after two attempts, or one when forced.  It never
    launches the interactive flow, asks the token endpoint nothing and
    leaves the disk alone. *)
Theorem getValidCredentials_service_account (forceAuth : bool) (w : World) :
  authTypeOf w = SERVICE_ACCOUNT ->
  let w' := world_after (getValidCredentials forceAuth) w in
  let found := existsSync (serviceAccountPath w) w in
  result_of (getValidCredentials forceAuth) w
    = Ok (if found then Some (HGoogleAuth (serviceAccountPath w) SCOPES) else None) /\
  service_account_attempts w'
    = (service_account_attempts w + if forceAuth || found then 1 else 2)%nat /\
  interactive_flows w' = interactive_flows w /\
  refresh_attempts w' = refresh_attempts w /\
  disk_writes w' = disk_writes w /\
  creds_dir w' = creds_dir w.
Proof.
  intros Hmode. cbv zeta.
  assert (Hretry : forall v,
    let v0 := set_trace (EvLog "Retrying service account authentication" :: trace v) v in
    let v' := world_after authenticateWithServiceAccount v0 in
    result_of authenticateWithServiceAccount v0
      = Ok (if existsSync (serviceAccountPath v) v
            then Some (HGoogleAuth (serviceAccountPath v) SCOPES) else None) /\
    service_account_attempts v' = S (service_account_attempts v) /\
    interactive_flows v' = interactive_flows v /\
    refresh_attempts v' = refresh_attempts v /\
    disk_writes v' = disk_writes v /\
    creds_dir v' = creds_dir v /\
    quiet_frame v v').
  { intros v v0 v'.
    destruct (authenticateWithServiceAccount_cases v0) as (Hf & Hr & Ha & Hd & Hre & Hw).
    fold v' in Hf, Ha, Hd, Hre, Hw.
    split; [exact Hr|]. split; [exact Ha|].
    split; [exact (qf_interactive _ _ Hf)|].
    split; [exact Hre|]. split; [exact Hw|]. split; [exact Hd|].
    eapply quiet_frame_trans; [apply quiet_frame_log|exact Hf]. }
  unfold result_of, world_after, getValidCredentials.
  unfold mbind, M_bind, mret, M_ret.
  destruct forceAuth; cbn [negb orb].
  - rewrite getAuthType_authTypeOf, Hmode. unfold log, emit, modify. cbn.
    destruct (Hretry w) as (Hr & Ha & Hi & Hre & Hw & Hd & _).
    unfold result_of, world_after in *.
    repeat split; try assumption. rewrite Ha. lia.
  - rewrite loadCredentialsQuietly_run, Hmode.
    set (w0 := set_trace _ w).
    destruct (authenticateWithServiceAccount_cases w0) as (Hf & Hr & Ha & Hd & Hre & Hw).
    assert (Hw0 : quiet_frame w w0) by apply quiet_frame_log.
    unfold result_of, world_after in Hf, Hr, Ha, Hd, Hre, Hw.
    destruct (authenticateWithServiceAccount w0) as [r1 w1]. cbn in Hf, Hr, Ha, Hd, Hre, Hw.
    subst r1.
    change (serviceAccountPath w0) with (serviceAccountPath w) in *.
    change (existsSync (serviceAccountPath w) w0)
      with (existsSync (serviceAccountPath w) w) in *.
    destruct (existsSync (serviceAccountPath w) w) eqn:Hfound; cbn.
    + split; [reflexivity|].
      split; [rewrite Ha; unfold service_account_attempts; cbn; lia|].
      split; [exact (qf_interactive _ _ Hf)|].
      split; [exact Hre|]. split; [exact Hw|exact Hd].
    + assert (Hframe : quiet_frame w w1) by (eapply quiet_frame_trans; eassumption).
      rewrite getAuthType_authTypeOf, (authTypeOf_quiet_frame _ _ Hframe), Hmode.
      unfold log, emit, modify. cbn.
      destruct (Hretry w1) as (Hr2 & Ha2 & Hi2 & Hre2 & Hw2 & Hd2 & _).
      unfold result_of, world_after in Hr2, Ha2, Hi2, Hre2, Hw2, Hd2.
      rewrite (qf_service_account_path _ _ Hframe), (qf_exists _ _ Hframe), Hfound in Hr2.
      repeat split.
      * exact Hr2.
      * rewrite Ha2, Ha. unfold service_account_attempts. cbn. lia.
      * rewrite Hi2. exact (qf_interactive _ _ Hframe).
      * rewrite Hre2. exact Hre.
      * rewrite Hw2. exact Hw.
      * rewrite Hd2. exact Hd.
Qed.

Lemma getValidCredentials_service_account_witness :
  authTypeOf world_forced_flow = SERVICE_ACCOUNT /\
  result_of (getValidCredentials false) world_forced_flow = Ok None /\
  interactive_flows (world_after (getValidCredentials false) world_forced_flow) = 0%nat /\
  authTypeOf world_key_file = SERVICE_ACCOUNT /\
  result_of (getValidCredentials false) world_key_file
    = Ok (Some (HGoogleAuth (InCredsDir "service-account.json") SCOPES)).
Proof.
  assert (M1 : authTypeOf world_forced_flow = SERVICE_ACCOUNT) by (vm_compute; reflexivity).
  assert (M2 : authTypeOf world_key_file = SERVICE_ACCOUNT) by (vm_compute; reflexivity).
  destruct (getValidCredentials_service_account false world_forced_flow M1)
    as (R1 & _ & I1 & _).
  destruct (getValidCredentials_service_account false world_key_file M2) as (R2 & _).
  split; [exact M1|]. split; [rewrite R1; vm_compute; reflexivity|].
  split; [rewrite I1; vm_compute; reflexivity|].
  split; [exact M2|]. rewrite R2. vm_compute. reflexivity.
Defined.

(** X10: [authenticateWithTimeout(keyfilePath, scopes, timeoutMs)], for a
    timeout that [setTimeout] takes as it is, launches the browser flow
    exactly once and never throws.  It returns a client exactly when the
    flow resolves with that client before the timeout, and null in every
    other case; the disk and the token endpoint are not touched. *)
Theorem authenticateWithTimeout_spec
    (w : World) (keyfilePath : Path) (scopes : list string) (timeoutMs : Z) :
  1 <= timeoutMs <= maxTimerDelay ->
  let w' := world_after (authenticateWithTimeout keyfilePath scopes timeoutMs) w in
  let r := result_of (authenticateWithTimeout keyfilePath scopes timeoutMs) w in
  (forall client,
     r = Ok (Some client) <->
     exists d, auth_flow w = FlowResolves d client /\ d < timeoutMs) /\
  (r = Ok None <-> flow_fails (auth_flow w) timeoutMs = true) /\
  interactive_flows w' = S (interactive_flows w) /\
  creds_dir w' = creds_dir w /\
  disk_writes w' = disk_writes w /\
  refresh_attempts w' = refresh_attempts w /\
  refresh_responses w' = refresh_responses w.
Proof.
  intros _.
  destruct w as [e sap dc out flow cok cd t rr ga tr].
  destruct flow as [d client|d|];
    [destruct (d <? timeoutMs) eqn:Hlt|destruct (d <? timeoutMs) eqn:Hlt|];
    exec; rewrite ?Hlt; cbn;
    try (apply Z.ltb_lt in Hlt); try (apply Z.ltb_ge in Hlt).
  all: split;
    [intros c; split;
       [intros Hc; try discriminate Hc; injection Hc as <-; eauto
       |intros (d' & Hc & Hd); try discriminate Hc;
        injection Hc as <- <-; (reflexivity || lia)]|].
  all: split; [split; intros Hc; (reflexivity || discriminate Hc)|].
  all: repeat split; reflexivity.
Qed.

Lemma authenticateWithTimeout_spec_witness :
  1 <= default_timeoutMs <= maxTimerDelay /\
  result_of (authenticateWithTimeout (InCredsDir "gcp-oauth.keys.json") SCOPES
               default_timeoutMs) world_first_run = Ok (Some refreshable_client) /\
  result_of (authenticateWithTimeout (InCredsDir "gcp-oauth.keys.json") SCOPES
               default_timeoutMs) world_flow_rejects = Ok None.
Proof.
  assert (H : 1 <= default_timeoutMs <= maxTimerDelay) by (vm_compute; split; discriminate).
  destruct (authenticateWithTimeout_spec world_first_run
              (InCredsDir "gcp-oauth.keys.json") SCOPES default_timeoutMs H)
    as (Hclient & _).
  destruct (authenticateWithTimeout_spec world_flow_rejects
              (InCredsDir "gcp-oauth.keys.json") SCOPES default_timeoutMs H)
    as (_ & Hnull & _).
  split; [exact H|]. split.
  - apply Hclient. exists 5000. split; [reflexivity|vm_compute; reflexivity].
  - apply Hnull. reflexivity.
Defined.





(** X12: when the credentials directory is missing and cannot be created,
    the error of [ensureCredsDirectory()] is caught by
    [authenticateAndSaveCredentials()]: after a successful flow and refresh
    it still returns a client, not null, but nothing is persisted. *)
Theorem authenticateAndSaveCredentials_unwritable
    (w : World) (d : Z) (client : OAuth2Client)
    (newCreds : Credentials) (rest : list (option Credentials)) :
  auth_flow w = FlowResolves d client ->
  d < default_timeoutMs ->
  refresh_responses w = Some newCreds :: rest ->
  creds_dir w = None ->
  dir_creatable w = false ->
  let w' := world_after authenticateAndSaveCredentials w in
  (exists c, result_of authenticateAndSaveCredentials w = Ok (Some c)) /\
  creds_dir w' = None /\
  existsSync oauthCredentialsPath w' = false /\
  disk_writes w' = disk_writes w /\
  refresh_attempts w' = S (refresh_attempts w).
Proof.
  intros Hflow Hd Hanswer Hdir Hlocked.
  destruct w as [e sap dc out flow cok cd t rr ga tr].
  cbn in Hflow, Hanswer, Hdir, Hlocked. subst flow rr cd dc.
  apply Z.ltb_lt in Hd.
  destruct (hasRefreshToken (credentials client)) eqn:Htoken;
    exec; rewrite Hd; cbn; rewrite Htoken; cbn;
    (split; [eexists; reflexivity|]); repeat split; reflexivity.
Qed.

Lemma authenticateAndSaveCredentials_unwritable_witness :
  auth_flow world_locked = FlowResolves 5000 refreshable_client /\
  5000 < default_timeoutMs /\
  creds_dir world_locked = None /\
  dir_creatable world_locked = false /\
  (exists c, result_of authenticateAndSaveCredentials world_locked = Ok (Some c)) /\
  creds_dir (world_after authenticateAndSaveCredentials world_locked) = None.
Proof.
  assert (H1 : auth_flow world_locked = FlowResolves 5000 refreshable_client)
    by reflexivity.
  assert (H2 : 5000 < default_timeoutMs) by (vm_compute; reflexivity).
  assert (H3 : refresh_responses world_locked = Some fresh_creds :: []) by reflexivity.
  assert (H4 : creds_dir world_locked = None) by reflexivity.
  assert (H5 : dir_creatable world_locked = false) by reflexivity.
  destruct (authenticateAndSaveCredentials_unwritable world_locked 5000
              refreshable_client fresh_creds [] H1 H2 H3 H4 H5) as (R & D & _).
  repeat split; assumption.
Defined.







(** * The tools and the request handlers *)

(** ** Strings *)

Lemma string_app_assoc (a b c : string) : (a ++ b) ++ c = a ++ (b ++ c).
Proof.
  induction a as [|x a IH]; [reflexivity|].
  change (String x ((a ++ b) ++ c) = String x (a ++ (b ++ c))).
  rewrite IH. reflexivity.
Qed.

Lemma strip_prefix_app (p s : string) : strip_prefix p (p ++ s) = Some s.
Proof.
  induction p as [|a p IH]; [destruct s; reflexivity|].
  change (strip_prefix (String a p) (String a (p ++ s)) = Some s).
  change (strip_prefix (String a p) (String a (p ++ s)))
    with (if Ascii.eqb a a then strip_prefix p (p ++ s) else None).
  rewrite Ascii.eqb_refl. exact IH.
Qed.

Lemma split_blank_line_nonempty (s : string) : split_blank_line s <> [].
Proof.
  assert (H : split_blank_line s <> [] /\ forall c, split_blank_line (String c s) <> []).
  { induction s as [|a s [IH1 IH2]].
    - split; [discriminate|]. intros c. cbn. discriminate.
    - split; [apply IH2|]. intros c.
      change (split_blank_line (String c (String a s)))
        with (if Ascii.eqb c LF && Ascii.eqb a LF
              then EmptyString :: split_blank_line s
              else cons_to_first c (split_blank_line (String a s))).
      destruct (Ascii.eqb c LF && Ascii.eqb a LF); [discriminate|].
      destruct (split_blank_line (String a s)); discriminate. }
  apply H.
Qed.

Lemma join_cons_to_first (c : ascii) (parts : list string) :
  parts <> [] ->
  join_blank_line (cons_to_first c parts) = String c (join_blank_line parts).
Proof.
  destruct parts as [|p [|q ps]]; [congruence|reflexivity|reflexivity].
Qed.

Lemma join_cons (p : string) (parts : list string) :
  parts <> [] ->
  join_blank_line (p :: parts) = p ++ blank_line ++ join_blank_line parts.
Proof. destruct parts; [congruence|reflexivity]. Qed.

(** Joining the parts of a split gives the text back. *)
Lemma join_split_blank_line (s : string) :
  join_blank_line (split_blank_line s) = s.
Proof.
  assert (H : join_blank_line (split_blank_line s) = s /\
              forall c, join_blank_line (split_blank_line (String c s)) = String c s).
  { induction s as [|a s [IH1 IH2]].
    - split; [reflexivity|]. intros c. reflexivity.
    - split; [apply IH2|]. intros c.
      change (split_blank_line (String c (String a s)))
        with (if Ascii.eqb c LF && Ascii.eqb a LF
              then EmptyString :: split_blank_line s
              else cons_to_first c (split_blank_line (String a s))).
      destruct (Ascii.eqb c LF && Ascii.eqb a LF) eqn:Hsep.
      + apply andb_true_iff in Hsep as [Hc Ha].
        apply Ascii.eqb_eq in Hc, Ha. subst c a.
        rewrite join_cons by apply split_blank_line_nonempty.
        rewrite IH1. reflexivity.
      + rewrite join_cons_to_first by apply split_blank_line_nonempty.
        rewrite IH2. reflexivity. }
  apply H.
Qed.

(** A header without blank line that does not end with a line feed is the
    first part of the split. *)
Lemma split_blank_line_header (h body : string) :
  no_blank_line (h ++ String LF EmptyString) = true ->
  split_blank_line (h ++ blank_line ++ body) = h :: split_blank_line body.
Proof.
  induction h as [|c h IH]; intros Hclean.
  - reflexivity.
  - change ((String c h ++ blank_line ++ body))
      with (String c (h ++ blank_line ++ body)).
    change (String c h ++ String LF EmptyString)
      with (String c (h ++ String LF EmptyString)) in Hclean.
    destruct h as [|c' h'].
    + assert (Hc : Ascii.eqb c LF = false).
      { destruct (Ascii.eqb c LF) eqn:E; [|reflexivity].
        apply Ascii.eqb_eq in E. subst c. vm_compute in Hclean. discriminate Hclean. }
      change (split_blank_line (String c (String LF (String LF body)))
              = String c EmptyString :: split_blank_line body).
      change (split_blank_line (String c (String LF (String LF body))))
        with (if Ascii.eqb c LF && Ascii.eqb LF LF
              then EmptyString :: split_blank_line (String LF body)
              else cons_to_first c (split_blank_line (String LF (String LF body)))).
      rewrite Hc. reflexivity.
    + change (String c' h' ++ String LF EmptyString)
        with (String c' (h' ++ String LF EmptyString)) in *.
      change (no_blank_line (String c (String c' (h' ++ String LF EmptyString))))
        with (negb (Ascii.eqb c LF && Ascii.eqb c' LF)
              && no_blank_line (String c' (h' ++ String LF EmptyString))) in Hclean.
      apply andb_true_iff in Hclean as [Hsep Hrest].
      apply negb_true_iff in Hsep.
      change (String c' h' ++ blank_line ++ body)
        with (String c' (h' ++ blank_line ++ body)) in *.
      change (split_blank_line (String c (String c' (h' ++ blank_line ++ body))))
        with (if Ascii.eqb c LF && Ascii.eqb c' LF
              then EmptyString :: split_blank_line (h' ++ blank_line ++ body)
              else cons_to_first c (split_blank_line (String c' (h' ++ blank_line ++ body)))).
      rewrite Hsep. rewrite (IH Hrest). reflexivity.
Qed.

Lemma no_blank_line_colon (name : string) :
  no_blank_line name = true ->
  no_blank_line (name ++ ":" ++ String LF EmptyString) = true.
Proof.
  induction name as [|c name IH]; intros Hclean; [reflexivity|].
  destruct name as [|c' name'].
  - change (no_blank_line (String c EmptyString ++ ":" ++ String LF EmptyString))
      with (negb (Ascii.eqb c LF && false) && true).
    rewrite andb_false_r. reflexivity.
  - change (no_blank_line (String c (String c' name')))
      with (negb (Ascii.eqb c LF && Ascii.eqb c' LF)
            && no_blank_line (String c' name')) in Hclean.
    apply andb_true_iff in Hclean as [Hsep Hrest].
    change (no_blank_line (String c (String c' name') ++ ":" ++ String LF EmptyString))
      with (negb (Ascii.eqb c LF && Ascii.eqb c' LF)
            && no_blank_line (String c' name' ++ ":" ++ String LF EmptyString)).
    rewrite Hsep. exact (IH Hrest).
Qed.

(** The header that [readFile] puts before the contents. *)
Lemma fileContentsOf_header (name body : string) :
  no_blank_line name = true ->
  fileContentsOf ("Contents of " ++ name ++ ":" ++ blank_line ++ body) = body.
Proof.
  intros Hclean. unfold fileContentsOf.
  assert (Hsplit : split_blank_line ("Contents of " ++ name ++ ":" ++ blank_line ++ body)
                   = ("Contents of " ++ name ++ ":") :: split_blank_line body).
  { rewrite <- split_blank_line_header.
    - rewrite !string_app_assoc. reflexivity.
    - rewrite !string_app_assoc.
      assert (Hprefix : forall x, no_blank_line ("Contents of " ++ x) = no_blank_line x)
        by (intros [|a x]; reflexivity).
      rewrite Hprefix. apply no_blank_line_colon. exact Hclean. }
  rewrite Hsplit. cbn [length tail].
  destruct (split_blank_line body) as [|p ps] eqn:Hparts.
  - exfalso. exact (split_blank_line_nonempty body Hparts).
  - cbn [length]. rewrite <- Hparts. cbn. apply join_split_blank_line.
Qed.


(** ** The read tool *)

Lemma template_js_or_nonempty (v : JsString) (fallback : string) :
  fallback <> "" -> template (js_or v (SStr fallback)) <> "".
Proof.
  intros Hf. unfold js_or.
  destruct v as [| |s]; cbn; try exact Hf.
  destruct (String.eqb_spec s ""); cbn; [exact Hf|assumption].
Qed.

Lemma exportMimeTypeOf_values (m : string) :
  In (exportMimeTypeOf m) ["text/markdown"; "text/csv"; "text/plain"; "image/png"].
Proof.
  unfold exportMimeTypeOf.
  repeat (match goal with |- context [String.eqb ?a ?b] => destruct (String.eqb a b) end);
    cbn; tauto.
Qed.

(** X16: what [readGoogleDriveFile] (part_001) returns.  The name is the
    name of the file, or the file id when the name is missing or empty.  A
    Google Workspace file is always delivered as text, under one of four
    export types (a drawing is announced as image/png and still delivered
    as text); any other file is delivered as text exactly when its MIME
    type starts with text/ or is application/json, and as a base64 blob
    otherwise, a missing MIME type counting as application/octet-stream.
    Exactly one of [text] and [blob] is set. *)
Theorem readGoogleDriveFile_result (drive : Drive) (auth : option Handle)
    (fileId name : string) (contents : FileContent) :
  Part001.readGoogleDriveFile drive auth fileId = ApiOk (name, contents) ->
  exists file,
    files_get drive auth fileId = ApiOk file /\
    name = template (js_or (meta_name file) (SStr fileId)) /\
    (fileId <> "" -> name <> "") /\
    fc_mimeType contents <> "" /\
    if isGoogleApps (meta_mimeType file) then
      In (fc_mimeType contents) ["text/markdown"; "text/csv"; "text/plain"; "image/png"] /\
      exists data,
        files_export drive auth fileId (fc_mimeType contents) = ApiOk data /\
        fc_text contents = SStr data /\ fc_blob contents = SUndefined
    else
      exists content,
        files_get_media drive auth fileId = ApiOk content /\
        fc_mimeType contents
          = template (js_or (meta_mimeType file) (SStr "application/octet-stream")) /\
        if isTextMime (fc_mimeType contents)
        then fc_text contents = SStr (buf_utf8 content) /\ fc_blob contents = SUndefined
        else fc_blob contents = SStr (buf_base64 content) /\ fc_text contents = SUndefined.
Proof.
  unfold Part001.readGoogleDriveFile.
  destruct (files_get drive auth fileId) as [file|m]; [|discriminate].
  intros Hres. exists file. split; [reflexivity|].
  destruct (isGoogleApps (meta_mimeType file)) eqn:Happs.
  - destruct (files_export drive auth fileId _) as [data|m] eqn:Hexp; [|discriminate].
    injection Hres as <- <-. cbn.
    split; [reflexivity|]. split; [apply template_js_or_nonempty|].
    split.
    + pose proof (exportMimeTypeOf_values (template (meta_mimeType file))) as Hin.
      intros Hempty. rewrite Hempty in Hin. cbn in Hin.
      repeat (destruct Hin as [Hin|Hin]; [discriminate Hin|]). exact Hin.
    + split; [apply exportMimeTypeOf_values|]. exists data. repeat split. exact Hexp.
  - destruct (files_get_media drive auth fileId) as [content|m] eqn:Hmedia; [|discriminate].
    injection Hres as <- <-. cbn.
    split; [reflexivity|]. split; [apply template_js_or_nonempty|].
    split; [apply template_js_or_nonempty; discriminate|].
    exists content. split; [reflexivity|]. split; [reflexivity|].
    destruct (isTextMime _); split; reflexivity.
Qed.

Lemma readGoogleDriveFile_result_witness :
  Part001.readGoogleDriveFile sample_drive None "sketch"
    = ApiOk ("Sketch", {| fc_mimeType := "image/png"; fc_text := SStr "";
                          fc_blob := SUndefined |}) /\
  exists file,
    files_get sample_drive None "sketch" = ApiOk file /\
    isGoogleApps (meta_mimeType file) = true.
Proof.
  assert (H : Part001.readGoogleDriveFile sample_drive None "sketch"
              = ApiOk ("Sketch", {| fc_mimeType := "image/png"; fc_text := SStr "";
                                    fc_blob := SUndefined |}))
    by (vm_compute; reflexivity).
  destruct (readGoogleDriveFile_result sample_drive None "sketch" _ _ H)
    as (file & Hget & _).
  split; [exact H|]. exists file. split; [exact Hget|].
  vm_compute in Hget. injection Hget as <-. reflexivity.
Defined.

(** The run of [readFile] (part_001): it never throws. *)
Lemma readFile_run (drive : Drive) (fileId : string) (w : World) :
  let w' := world_after (Part001.readFile drive fileId) w in
  match Part001.readGoogleDriveFile drive (google_auth w) fileId with
  | ApiOk (name, contents) =>
      result_of (Part001.readFile drive fileId) w
        = Ok {| tr_content :=
                  [ "Contents of " ++ name ++ ":" ++ blank_line
                      ++ template (js_or (fc_text contents) (fc_blob contents)) ];
                tr_isError := false |} /\
      w' = w
  | ApiError message =>
      result_of (Part001.readFile drive fileId) w
        = Ok {| tr_content := [ "Error reading file: " ++ message ];
                tr_isError := true |} /\
      w' = set_trace (EvLog "Error reading file" :: trace w) w
  end.
Proof.
  cbv zeta. unfold result_of, world_after, Part001.readFile, log, emit.
  unfold_monad. cbn.
  destruct (Part001.readGoogleDriveFile drive (google_auth w) fileId) as [[name c]|m];
    split; reflexivity.
Qed.

Lemma readGoogleDriveFile_empty_blob (drive : Drive) (auth : option Handle)
    (fileId name : string) (contents : FileContent) :
  Part001.readGoogleDriveFile drive auth fileId = ApiOk (name, contents) ->
  fc_text contents = SStr "" ->
  fc_blob contents = SUndefined.
Proof.
  unfold Part001.readGoogleDriveFile.
  destruct (files_get drive auth fileId) as [file|m]; [|discriminate].
  destruct (isGoogleApps (meta_mimeType file)).
  - destruct (files_export drive auth fileId _) as [data|m]; [|discriminate].
    intros [= <- <-] _. reflexivity.
  - destruct (files_get_media drive auth fileId) as [content|m]; [|discriminate].
    intros [= <- <-]. cbn. destruct (isTextMime _); [reflexivity|discriminate].
Qed.

(** X17: an empty text is shown as "undefined" by [readFile] (part_001).
    When the file is delivered as text and that text is empty, [text ||
    blob] is the missing blob, and the response reads "Contents of
    <name>:", a blank line, "undefined". *)
Theorem readFile_empty_text (drive : Drive) (fileId name : string)
    (contents : FileContent) (w : World) :
  Part001.readGoogleDriveFile drive (google_auth w) fileId = ApiOk (name, contents) ->
  fc_text contents = SStr "" ->
  result_of (Part001.readFile drive fileId) w
    = Ok {| tr_content := [ "Contents of " ++ name ++ ":" ++ blank_line ++ "undefined" ];
            tr_isError := false |}.
Proof.
  intros Hread Hempty.
  pose proof (readGoogleDriveFile_empty_blob drive (google_auth w) fileId name contents
                Hread Hempty) as Hblob.
  unfold result_of, Part001.readFile. unfold_monad. cbn.
  rewrite Hread. cbn. rewrite Hempty, Hblob. reflexivity.
Qed.


Lemma readFile_empty_text_witness :
  Part001.readGoogleDriveFile sample_drive (google_auth world_blank) "sketch"
    = ApiOk ("Sketch", {| fc_mimeType := "image/png"; fc_text := SStr "";
                          fc_blob := SUndefined |}) /\
  result_of (Part001.readFile sample_drive "sketch") world_blank
    = Ok {| tr_content := [ "Contents of Sketch:" ++ blank_line ++ "undefined" ];
            tr_isError := false |}.
Proof.
  assert (H : Part001.readGoogleDriveFile sample_drive (google_auth world_blank) "sketch"
              = ApiOk ("Sketch", {| fc_mimeType := "image/png"; fc_text := SStr "";
                                    fc_blob := SUndefined |}))
    by (vm_compute; reflexivity).
  split; [exact H|].
  exact (readFile_empty_text sample_drive "sketch" "Sketch" _ world_blank H eq_refl).
Defined.

(** ** The request handlers *)

Lemma ensureAuthQuietly_run (w : World) :
  exists q, ensureAuthQuietly w = (Ok q, world_after ensureAuthQuietly w) /\
    interactive_flows (world_after ensureAuthQuietly w) = interactive_flows w /\
    process_exits (world_after ensureAuthQuietly w) = process_exits w.
Proof.
  destruct (quiet_run w) as (q & wq & Hq & Hframe). exists q.
  unfold world_after, ensureAuthQuietly, google_options. unfold_monad.
  rewrite Hq. cbn.
  destruct q as [h|]; cbn; repeat split;
    try exact (qf_interactive _ _ Hframe); exact (qf_exits _ _ Hframe).
Qed.

(** X18: reading a resource through [readFile] (part_001).  The handler
    runs the quiet load only, then reads the file named by the URI with the
    default credentials in place.  A failure of the remote API rejects the
    request with "Error reading file: " and the message.  On success the
    answer has one item with the URI of the request, the MIME type
    text/plain whatever the file is, and as text exactly what [readFile] put
    after its header, blank lines included, provided the name of the file
    holds no blank line.  No interactive flow is launched and the process is
    not left. *)
Theorem handleReadResource_readFile (drive : Drive) (uri : string) (w : World) :
  let h := handleReadResource (fun fileId => lift (Part001.readFile drive fileId)) uri in
  let w1 := world_after ensureAuthQuietly w in
  (forall name contents,
     Part001.readGoogleDriveFile drive (google_auth w1) (fileIdOfUri uri)
       = ApiOk (name, contents) ->
     no_blank_line name = true ->
     reply_of h w
       = Returned [ {| rc_uri := uri; rc_mimeType := "text/plain";
                       rc_text := template (js_or (fc_text contents) (fc_blob contents)) |} ]) /\
  (forall message,
     Part001.readGoogleDriveFile drive (google_auth w1) (fileIdOfUri uri)
       = ApiError message ->
     reply_of h w = Rejected ("Error reading file: " ++ message)) /\
  interactive_flows (world_of h w) = interactive_flows w /\
  process_exits (world_of h w) = process_exits w.
Proof.
  cbv zeta.
  destruct (ensureAuthQuietly_run w) as (q & Hq & Hi & He).
  set (w1 := world_after ensureAuthQuietly w) in *.
  pose proof (readFile_run drive (fileIdOfUri uri) w1) as Hrun. cbv zeta in Hrun.
  unfold reply_of, world_of, handleReadResource, h_try, h_bind, lift, h_ret, h_throw.
  rewrite Hq. unfold result_of, world_after in Hrun.
  destruct (Part001.readFile drive (fileIdOfUri uri) w1) as [r w2].
  destruct (Part001.readGoogleDriveFile drive (google_auth w1) (fileIdOfUri uri))
    as [[name c]|m]; cbn in Hrun; destruct Hrun as [-> ->].
  - cbn [tr_content tr_isError fst snd].
    split; [|split; [intros m Hm; discriminate Hm|split; assumption]].
    intros name' c' [= <- <-] Hclean.
    rewrite (fileContentsOf_header name _ Hclean). reflexivity.
  - cbn [tr_content tr_isError fst snd]. unfold log, emit, modify. cbn.
    split; [intros name c Hc; discriminate Hc|].
    split; [intros m' [= <-]; reflexivity|].
    split; assumption.
Qed.

Lemma handleReadResource_readFile_witness :
  Part001.readGoogleDriveFile sample_drive
    (google_auth (world_after ensureAuthQuietly world_fresh)) (fileIdOfUri "gdrive:///notes")
    = ApiOk ("notes.txt",
             {| fc_mimeType := "text/plain";
                fc_text := SStr ("first" ++ blank_line ++ "second");
                fc_blob := SUndefined |}) /\
  no_blank_line "notes.txt" = true /\
  reply_of (handleReadResource (fun fileId => lift (Part001.readFile sample_drive fileId))
              "gdrive:///notes") world_fresh
    = Returned [ {| rc_uri := "gdrive:///notes"; rc_mimeType := "text/plain";
                    rc_text := "first" ++ blank_line ++ "second" |} ] /\
  Part001.readGoogleDriveFile sample_drive
    (google_auth (world_after ensureAuthQuietly world_fresh)) (fileIdOfUri "gdrive:///gone")
    = ApiError "File not found" /\
  reply_of (handleReadResource (fun fileId => lift (Part001.readFile sample_drive fileId))
              "gdrive:///gone") world_fresh
    = Rejected "Error reading file: File not found".
Proof.
  assert (H1 : Part001.readGoogleDriveFile sample_drive
                 (google_auth (world_after ensureAuthQuietly world_fresh))
                 (fileIdOfUri "gdrive:///notes")
               = ApiOk ("notes.txt",
                        {| fc_mimeType := "text/plain";
                           fc_text := SStr ("first" ++ blank_line ++ "second");
                           fc_blob := SUndefined |}))
    by (vm_compute; reflexivity).
  assert (H2 : no_blank_line "notes.txt" = true) by (vm_compute; reflexivity).
  assert (H3 : Part001.readGoogleDriveFile sample_drive
                 (google_auth (world_after ensureAuthQuietly world_fresh))
                 (fileIdOfUri "gdrive:///gone")
               = ApiError "File not found")
    by (vm_compute; reflexivity).
  destruct (handleReadResource_readFile sample_drive "gdrive:///notes" world_fresh)
    as (Hok & _).
  destruct (handleReadResource_readFile sample_drive "gdrive:///gone" world_fresh)
    as (_ & Hko & _).
  split; [exact H1|]. split; [exact H2|].
  split; [exact (Hok _ _ H1 H2)|]. split; [exact H3|exact (Hko _ H3)].
Defined.

(** X19: what the current read tool ([src/tools/gdrive_read_file.ts])
    shows, whatever the regular-expression replacements do.  A file that is
    not delivered as text is shown as the fixed text
    "[BINARY_DATA_TRUNCATED]": neither its bytes nor its size reach the
    response.  A file delivered as an empty text is shown as "No content
    available". *)
Theorem readFile_placeholders (replaceBase64 : string -> string)
    (drive : Drive) (fileId name : string) (contents : FileContent) (w : World) :
  GdriveReadFile.readGoogleDriveFile replaceBase64 drive (google_auth w) fileId
    = ApiOk (name, contents) ->
  let shown :=
    result_of (GdriveReadFile.readFile replaceBase64 drive fileId) w in
  let response (body : string) :=
    Ok {| tr_content := [ "Contents of " ++ name ++ ":" ++ blank_line ++ body ];
          tr_isError := false |} in
  (fc_text contents = SUndefined -> shown = response "[BINARY_DATA_TRUNCATED]") /\
  (fc_text contents = SStr "" -> shown = response "No content available").
Proof.
  intros Hread. cbv zeta.
  unfold result_of, GdriveReadFile.readFile. unfold_monad. cbn. rewrite Hread. cbn.
  unfold GdriveReadFile.shownContents.
  revert Hread. unfold GdriveReadFile.readGoogleDriveFile.
  destruct (files_get drive (google_auth w) fileId) as [file|m]; [|discriminate].
  destruct (isGoogleApps (meta_mimeType file)).
  - destruct (files_export drive (google_auth w) fileId _) as [data|m]; [|discriminate].
    intros [= <- <-]. cbn. split; [discriminate|].
    intros [= Hempty]. rewrite Hempty. reflexivity.
  - destruct (files_get_media drive (google_auth w) fileId) as [content|m]; [|discriminate].
    intros [= <- <-]. cbn. destruct (isTextMime _); cbn.
    + split; [discriminate|]. intros [= Hempty]. rewrite Hempty. reflexivity.
    + split; [reflexivity|discriminate].
Qed.

Lemma readFile_placeholders_witness :
  GdriveReadFile.readGoogleDriveFile (fun s => s) sample_drive (google_auth world_blank)
    "archive"
    = ApiOk ("archive",
             {| fc_mimeType := "application/octet-stream"; fc_text := SUndefined;
                fc_blob := SStr "[BINARY_DATA_TRUNCATED - 2 bytes]" |}) /\
  result_of (GdriveReadFile.readFile (fun s => s) sample_drive "archive") world_blank
    = Ok {| tr_content := [ "Contents of archive:" ++ blank_line ++ "[BINARY_DATA_TRUNCATED]" ];
            tr_isError := false |}.
Proof.
  assert (H : GdriveReadFile.readGoogleDriveFile (fun s => s) sample_drive
                (google_auth world_blank) "archive"
              = ApiOk ("archive",
                       {| fc_mimeType := "application/octet-stream"; fc_text := SUndefined;
                          fc_blob := SStr "[BINARY_DATA_TRUNCATED - 2 bytes]" |}))
    by (vm_compute; reflexivity).
  destruct (readFile_placeholders (fun s => s) sample_drive "archive" "archive" _
              world_blank H) as [Hbin _].
  split; [exact H|exact (Hbin eq_refl)].
Defined.


Lemma replace_first_eq (pattern replacement s : string) :
  replace_first pattern replacement s =
  match strip_prefix pattern s with
  | Some rest => replacement ++ rest
  | None =>
      match s with
      | EmptyString => EmptyString
      | String c s' => String c (replace_first pattern replacement s')
      end
  end.
Proof. destruct s; reflexivity. Qed.

Lemma fileIdOfUri_resourceUri (file : FileMetadata) :
  fileIdOfUri (resourceUri file) = template (meta_id file).
Proof.
  unfold fileIdOfUri, resourceUri.
  rewrite replace_first_eq, strip_prefix_app. reflexivity.
Qed.

(** X20: listing resources.  The handler runs the quiet load only and asks
    for one page of ten files with the default credentials in place,
    passing the cursor on as page token when it is not empty.  A failure of
    the remote API rejects the request with the message of the error, and so
    does an answer without [files].  Otherwise there is one resource per
    file, in the same order, and the URI of each resource leads
    [fileIdOfUri], the first step of the read handler, back to the id of its
    file.  No interactive flow is launched and the process is not left. *)
Theorem handleListResources_spec (drive : Drive) (cursor : JsString) (w : World) :
  let h := handleListResources drive cursor in
  let w1 := world_after ensureAuthQuietly w in
  lp_pageSize (listParams cursor) = 10 /\
  lp_pageToken (listParams cursor)
    = (if truthy cursor then Some (template cursor) else None) /\
  match files_list drive (google_auth w1) (listParams cursor) with
  | ApiOk res =>
      match fl_files res with
      | Some files =>
          exists resources,
            reply_of h w = Returned (resources, fl_nextPageToken res) /\
            length resources = length files /\
            map res_name resources = map meta_name files /\
            map (fun r => fileIdOfUri (res_uri r)) resources
              = map (fun file => template (meta_id file)) files
      | None =>
          reply_of h w
            = Rejected "TypeError: Cannot read properties of undefined (reading 'map')"
      end
  | ApiError message => reply_of h w = Rejected message
  end /\
  interactive_flows (world_of h w) = interactive_flows w /\
  process_exits (world_of h w) = process_exits w.
Proof.
  cbv zeta.
  destruct (ensureAuthQuietly_run w) as (q & Hq & Hi & He).
  set (w1 := world_after ensureAuthQuietly w) in *.
  split; [reflexivity|]. split; [reflexivity|].
  unfold reply_of, world_of, handleListResources, h_try, h_bind, lift, api, h_ret, h_throw.
  rewrite Hq. unfold gets. cbn [fst snd].
  destruct (files_list drive (google_auth w1) (listParams cursor)) as [res|m].
  - destruct (fl_files res) as [files|]; cbn.
    + split; [|split; assumption].
      eexists. split; [reflexivity|].
      split; [apply length_map|]. split.
      * rewrite map_map. reflexivity.
      * rewrite map_map. cbn. apply map_ext. intros file.
        apply fileIdOfUri_resourceUri.
    + unfold log, emit, modify. cbn. split; [reflexivity|split; assumption].
  - cbn. unfold log, emit, modify. cbn. split; [reflexivity|split; assumption].
Qed.

(** X21: calling a tool.  [ensureAuth()] runs first, whatever the name:
    for a name that no entry of the registry carries the request is rejected
    with "Tool not found", but only after the authentication, interactive
    flow included, has run and its result has been installed.  For a known
    name the first entry with that name answers, and its response is handed
    on with its content and its error flag unchanged. *)
Theorem handleCallTool_spec {Args : Type} (tools : list (Tool Args))
    (name : string) (arguments : Args) (w : World) :
  let h := handleCallTool tools name arguments in
  let w1 := world_after ensureAuth w in
  ((forall t, In t tools -> tool_name t <> name) ->
   reply_of h w = Rejected "Tool not found" /\ world_of h w = w1) /\
  (forall before t after,
     tools = (before ++ t :: after)%list ->
     (forall t', In t' before -> tool_name t' <> name) ->
     tool_name t = name ->
     reply_of h w
       = match reply_of (tool_handler t arguments) w1 with
         | Returned response => Returned (convertToolResponse response)
         | Rejected message => Rejected message
         end /\
     world_of h w = world_of (tool_handler t arguments) w1).
Proof.
  cbv zeta.
  assert (Hauth : exists r, ensureAuth w = (Ok r, world_after ensureAuth w)).
  { destruct (total_getValidCredentials false w) as [r Hr].
    unfold result_of, world_after, ensureAuth, google_options in *. unfold_monad.
    destruct (getValidCredentials false w) as [r' wg]. cbn in *. subst r'.
    eexists. reflexivity. }
  destruct Hauth as [r Hauth].
  set (w1 := world_after ensureAuth w) in *.
  unfold reply_of, world_of, handleCallTool, h_bind, lift, h_throw, h_ret.
  rewrite Hauth.
  split.
  - intros Hnone.
    assert (Hfind : find (fun t => String.eqb (tool_name t) name) tools = None).
    { induction tools as [|t tools IH]; [reflexivity|]. cbn.
      rewrite (proj2 (String.eqb_neq _ _) (Hnone t (or_introl eq_refl))).
      apply IH. intros t' Ht'. apply Hnone. now right. }
    rewrite Hfind. split; reflexivity.
  - intros before t after -> Hbefore Hname.
    assert (Hfind : find (fun t => String.eqb (tool_name t) name) (before ++ t :: after)
                    = Some t).
    { induction before as [|b before IH]; cbn.
      - rewrite (proj2 (String.eqb_eq _ _) Hname). reflexivity.
      - rewrite (proj2 (String.eqb_neq _ _) (Hbefore b (or_introl eq_refl))).
        apply IH. intros t' Ht'. apply Hbefore. now right. }
    rewrite Hfind.
    destruct (tool_handler t arguments w1) as [[response|message] w2]; split; reflexivity.
Qed.


Lemma handleCallTool_spec_witness :
  (forall t, In t sample_tools -> tool_name t <> "gdrive_search") /\
  reply_of (handleCallTool sample_tools "gdrive_search" "notes") world_blank
    = Rejected "Tool not found" /\
  interactive_flows (world_of (handleCallTool sample_tools "gdrive_search" "notes") world_blank)
    = 1%nat /\
  reply_of (handleCallTool sample_tools "gdrive_read_file" "gone") world_blank
    = Returned {| sdk_content := [ "Error reading file: File not found" ];
                  sdk_isError := true |}.
Proof.
  assert (H1 : forall t, In t sample_tools -> tool_name t <> "gdrive_search").
  { intros t [<-|[]]. discriminate. }
  destruct (handleCallTool_spec sample_tools "gdrive_search" "notes" world_blank)
    as [Hunknown _].
  destruct (Hunknown H1) as [Hr Hw].
  destruct (handleCallTool_spec sample_tools "gdrive_read_file" "gone" world_blank)
    as [_ Hknown].
  destruct (Hknown [] _ [] eq_refl (fun t' (H : In t' []) => match H with end) eq_refl)
    as [Hr2 _].
  split; [exact H1|]. split; [exact Hr|].
  split; [rewrite Hw; vm_compute; reflexivity|].
  rewrite Hr2. vm_compute. reflexivity.
Defined.

(** ** The size of a buffer *)

(** The number of tenths shown for [num / den]: within half a tenth of the
    quotient. *)
Lemma tenths_bounds (num den : N) :
  (0 < den)%N ->
  (2 * den * tenths num den <= 20 * num + den
   /\ 20 * num + den < 2 * den * tenths num den + 2 * den)%N.
Proof.
  intros Hden. unfold tenths.
  assert (Hne : (2 * den)%N <> 0%N) by lia.
  pose proof (N.div_mod (20 * num + den) (2 * den) Hne) as Hdiv.
  pose proof (N.mod_lt (20 * num + den) (2 * den) Hne) as Hmod.
  set (q := ((20 * num + den) / (2 * den))%N) in *.
  set (r := ((20 * num + den) mod (2 * den))%N) in *.
  set (p := (2 * den * q)%N) in *. lia.
Qed.

(** X22: [formatFileSize(bytes)] for an integer size below 2^53.  Below
    1024 the number of bytes is shown as it is.  From there on the size is shown in KB, MB or GB (powers of
    1024) with one decimal, within half a tenth of the exact quotient; the
    figure is at least 1.0, and in KB and MB it can reach 1024.0, for the
    sizes that round up to the next unit. *)
Theorem formatFileSize_spec (bytes : N) :
  (bytes < 2 ^ 53)%N ->
  let shown (n : N) (unit : string) :=
    (pretty (n / 10)%N ++ "." ++ pretty (n mod 10)%N) ++ unit in
  let close (n unit_size : N) :=
    (2 * unit_size * n <= 20 * bytes + unit_size
     /\ 20 * bytes + unit_size < 2 * unit_size * n + 2 * unit_size)%N in
  ((bytes < 1024)%N ->
   GdriveReadFile.formatFileSize bytes = pretty bytes ++ " bytes") /\
  ((1024 <= bytes < 1024 * 1024)%N ->
   exists n, GdriveReadFile.formatFileSize bytes = shown n " KB" /\
             close n 1024%N /\ (10 <= n <= 10240)%N) /\
  ((1024 * 1024 <= bytes < 1024 * 1024 * 1024)%N ->
   exists n, GdriveReadFile.formatFileSize bytes = shown n " MB" /\
             close n (1024 * 1024)%N /\ (10 <= n <= 10240)%N) /\
  ((1024 * 1024 * 1024 <= bytes)%N ->
   exists n, GdriveReadFile.formatFileSize bytes = shown n " GB" /\
             close n (1024 * 1024 * 1024)%N /\ (10 <= n <= 10 * 2 ^ 23)%N).
Proof.
  intros Hdouble.
  cbv zeta. unfold GdriveReadFile.formatFileSize, toFixed1.
  pose proof (tenths_bounds bytes 1024) as HK.
  pose proof (tenths_bounds bytes (1024 * 1024)) as HM.
  pose proof (tenths_bounds bytes (1024 * 1024 * 1024)) as HG.
  repeat split.
  - intros Hlt. apply N.ltb_lt in Hlt. rewrite Hlt. reflexivity.
  - intros [Hlo Hhi]. exists (tenths bytes 1024).
    destruct (N.ltb_spec bytes 1024); [lia|].
    destruct (N.ltb_spec bytes (1024 * 1024)); [|lia].
    split; [reflexivity|]. lia.
  - intros [Hlo Hhi]. exists (tenths bytes (1024 * 1024)).
    destruct (N.ltb_spec bytes 1024); [lia|].
    destruct (N.ltb_spec bytes (1024 * 1024)); [lia|].
    destruct (N.ltb_spec bytes (1024 * 1024 * 1024)); [|lia].
    split; [reflexivity|]. lia.
  - intros Hlo. exists (tenths bytes (1024 * 1024 * 1024)).
    destruct (N.ltb_spec bytes 1024); [lia|].
    destruct (N.ltb_spec bytes (1024 * 1024)); [lia|].
    destruct (N.ltb_spec bytes (1024 * 1024 * 1024)); [lia|].
    split; [reflexivity|]. lia.
Qed.

Lemma formatFileSize_spec_witness :
  (1536 < 2 ^ 53)%N /\
  (1024 <= 1536 < 1024 * 1024)%N /\
  GdriveReadFile.formatFileSize 1536 = "1.5 KB" /\
  (1024 <= 1048575 < 1024 * 1024)%N /\
  GdriveReadFile.formatFileSize 1048575 = "1024.0 KB" /\
  (1023 < 1024)%N /\
  GdriveReadFile.formatFileSize 1023 = "1023 bytes".
Proof.
  assert (H1 : (1024 <= 1536 < 1024 * 1024)%N) by lia.
  assert (H2 : (1024 <= 1048575 < 1024 * 1024)%N) by lia.
  assert (H3 : (1023 < 1024)%N) by lia.
  assert (D1 : (1536 < 2 ^ 53)%N) by (vm_compute; reflexivity).
  assert (D2 : (1048575 < 2 ^ 53)%N) by (vm_compute; reflexivity).
  assert (D3 : (1023 < 2 ^ 53)%N) by (vm_compute; reflexivity).
  destruct (formatFileSize_spec 1536 D1) as (_ & HK1 & _).
  destruct (formatFileSize_spec 1048575 D2) as (_ & HK2 & _).
  destruct (formatFileSize_spec 1023 D3) as (HB & _).
  destruct (HK1 H1) as (n1 & E1 & _). destruct (HK2 H2) as (n2 & E2 & _).
  split; [exact D1|].
  split; [exact H1|]. split; [vm_compute; reflexivity|].
  split; [exact H2|]. split; [vm_compute; reflexivity|].
  split; [exact H3|]. rewrite (HB H3). vm_compute. reflexivity.
Defined.

(** ** A null expiry date *)


